(** * Montage Maker backend: the job pipeline of [server.js]

    A shallow embedding of the asynchronous montage pipeline
    ([processMontage]), of its helpers ([parseDuration], the resolution
    table) and of the request handler that creates jobs, followed by the
    properties of the job record that the specification states.

    JavaScript numbers are modelled by [number]: a rational, the two
    infinities or NaN. The arithmetic is exact, where the numbers of the
    program are doubles: the two agree as long as every operand and result
    is an integer of absolute value below [2 ^ 53] or a fraction that a
    double holds exactly, and the floor of a quotient of two such integers
    is the same in both. The properties whose value depends on this are
    stated for integers below that bound; bounds and orderings hold in both
    because rounding is monotone and keeps these integers. The zero of the
    model is the positive zero; no input is the negative zero.
    The external tools (which, yt-dlp, ffmpeg, the filesystem, the clock,
    Math.random) are an oracle [Env] that fixes the outcome of every call. *)

From Stdlib Require Import ZArith QArith Qround Lia Lqa String Ascii List.
From Stdlib Require Import Sorted DecimalString DecimalNat.
From stdpp Require Import gmap strings.

Open Scope string_scope.

(** ** JavaScript numbers *)

Module JS.

Local Open Scope Q_scope.

Inductive number : Type :=
| Fin (q : Q)
| PInf
| NInf
| NaN.

Definition of_Z (z : Z) : number := Fin (inject_Z z).
Definition of_nat (n : nat) : number := of_Z (Z.of_nat n).

(** [Number.isSafeInteger] on an integer: a double holds it and its
    neighbours exactly. *)
Definition is_safe_integer (z : Z) : bool := (Z.abs z <? 2 ^ 53)%Z.

(** [a + b], not rounded. *)
Definition add (a b : number) : number :=
  match a, b with
  | NaN, _ | _, NaN => NaN
  | Fin x, Fin y => Fin (x + y)
  | PInf, NInf | NInf, PInf => NaN
  | PInf, _ | _, PInf => PInf
  | NInf, _ | _, NInf => NInf
  end.

(** [-a] *)
Definition neg (a : number) : number :=
  match a with
  | Fin x => Fin (- x)
  | PInf => NInf
  | NInf => PInf
  | NaN => NaN
  end.

(** [a - b] *)
Definition sub (a b : number) : number := add a (neg b).

(** The infinity whose sign is that of [s] times the sign of [q]; NaN when
    [q] is zero. *)
Definition inf_times (s : bool) (q : Q) : number :=
  match q ?= 0 with
  | Eq => NaN
  | Gt => if s then PInf else NInf
  | Lt => if s then NInf else PInf
  end.

(** [a * b], not rounded. *)
Definition mul (a b : number) : number :=
  match a, b with
  | NaN, _ | _, NaN => NaN
  | Fin x, Fin y => Fin (x * y)
  | PInf, Fin y | Fin y, PInf => inf_times true y
  | NInf, Fin y | Fin y, NInf => inf_times false y
  | PInf, PInf | NInf, NInf => PInf
  | PInf, NInf | NInf, PInf => NInf
  end.

(** [a / b], not rounded; the only zero is the positive one, so a finite
    number that is not zero, divided by zero, gives the infinity of its
    sign. *)
Definition div (a b : number) : number :=
  match a, b with
  | NaN, _ | _, NaN => NaN
  | Fin x, Fin y =>
      match y ?= 0 with
      | Eq => match x ?= 0 with Eq => NaN | Gt => PInf | Lt => NInf end
      | _ => Fin (x / y)
      end
  | Fin _, (PInf | NInf) => Fin 0
  | PInf, Fin y => if Qle_bool 0 y then PInf else NInf
  | NInf, Fin y => if Qle_bool 0 y then NInf else PInf
  | (PInf | NInf), (PInf | NInf) => NaN
  end.

(** [a < b] *)
Definition lt (a b : number) : bool :=
  match a, b with
  | NaN, _ | _, NaN => false
  | Fin x, Fin y => match x ?= y with Lt => true | _ => false end
  | NInf, (Fin _ | PInf) => true
  | Fin _, PInf => true
  | _, _ => false
  end.

(** [Math.floor(a)] *)
Definition floor (a : number) : number :=
  match a with
  | Fin x => of_Z (Qfloor x)
  | _ => a
  end.

(** [Math.max(a, b)] *)
Definition max (a b : number) : number :=
  match a, b with
  | NaN, _ | _, NaN => NaN
  | PInf, _ | _, PInf => PInf
  | NInf, c | c, NInf => c
  | Fin x, Fin y => if Qle_bool x y then Fin y else Fin x
  end.

(** The number is an integer. *)
Definition is_integer (a : number) : bool :=
  match a with
  | Fin x => Qeq_bool x (inject_Z (Qfloor x))
  | _ => false
  end.

(** [a] is the finite value [q] (up to the equality of fractions). *)
Definition is_value (a : number) (q : Q) : Prop :=
  match a with
  | Fin x => x == q
  | _ => False
  end.

(** [a] is finite and lies in the closed interval from [lo] to [hi]. *)
Definition within (lo hi : Q) (a : number) : Prop :=
  match a with
  | Fin x => lo <= x /\ x <= hi
  | _ => False
  end.

(** [a <= b] on finite numbers; false as soon as one is not finite. *)
Definition le (a b : number) : Prop :=
  match a, b with
  | Fin x, Fin y => x <= y
  | _, _ => False
  end.

End JS.

(** ** JavaScript strings *)

Module Str.

Definition is_digit (c : ascii) : bool :=
  let n := nat_of_ascii c in (48 <=? n)%nat && (n <=? 57)%nat.

Definition digit_value (c : ascii) : option Z :=
  if is_digit c then Some (Z.of_nat (nat_of_ascii c) - 48)%Z else None.

Definition hex_value (c : ascii) : option Z :=
  let n := nat_of_ascii c in
  if is_digit c then Some (Z.of_nat n - 48)%Z
  else if (97 <=? n)%nat && (n <=? 102)%nat then Some (Z.of_nat n - 87)%Z
  else if (65 <=? n)%nat && (n <=? 70)%nat then Some (Z.of_nat n - 55)%Z
  else None.

(** White space of the ASCII range: tab, line feed, vertical tab, form feed,
    carriage return, space. *)
Definition is_space (c : ascii) : bool :=
  let n := nat_of_ascii c in
  ((9 <=? n)%nat && (n <=? 13)%nat) || (n =? 32)%nat.

Fixpoint drop_spaces (s : string) : string :=
  match s with
  | String c rest => if is_space c then drop_spaces rest else s
  | EmptyString => EmptyString
  end.

(** [s.trim()] *)
Definition trim (s : string) : string :=
  String.rev (drop_spaces (String.rev (drop_spaces s))).

(** [s.split(sep)] for a separator of one character: never empty. *)
Fixpoint split (sep : ascii) (s : string) : list string :=
  match s with
  | EmptyString => [EmptyString]
  | String c rest =>
      if Ascii.eqb c sep then EmptyString :: split sep rest
      else match split sep rest with
           | first :: others => String c first :: others
           | [] => [String c EmptyString]
           end
  end.

(** [parts.join(sep)] *)
Fixpoint join (sep : string) (parts : list string) : string :=
  match parts with
  | [] => ""
  | [p] => p
  | p :: rest => p +:+ sep +:+ join sep rest
  end.

(** The value of a string of digits in base [radix], read from the left
    with [acc] the value read so far. *)
Fixpoint digits_from (radix : Z) (dig : ascii -> option Z) (acc : Z) (s : string)
  : option Z :=
  match s with
  | EmptyString => Some acc
  | String c rest =>
      match dig c with
      | Some d => digits_from radix dig (acc * radix + d)%Z rest
      | None => None
      end
  end.

(** [Number(s)] on the strings the duration probe prints: a field of decimal
    digits whose value is a safe integer, [Some] of its value, zero for the
    empty field. Every other string is outside the fragment ([None]): the
    model says nothing of it (the program gets NaN, a fraction, or the
    double nearest to a longer field). *)
Definition Number (s : string) : option JS.number :=
  match digits_from 10 digit_value 0 s with
  | Some v => if JS.is_safe_integer v then Some (JS.of_Z v) else None
  | None => None
  end.

(** The longest prefix of [s] made of digits of the base, as a value;
    [None] when the prefix is empty. *)
Fixpoint leading_digits (radix : Z) (dig : ascii -> option Z) (acc : option Z)
  (s : string) : option Z :=
  match s with
  | EmptyString => acc
  | String c rest =>
      match dig c with
      | Some d =>
          leading_digits radix dig
            (Some (match acc with Some a => a * radix + d | None => d end)%Z) rest
      | None => acc
      end
  end.

Definition strip_hex_prefix (s : string) : option string :=
  match s with
  | String "0" (String "x" rest) | String "0" (String "X" rest) => Some rest
  | _ => None
  end.

(** [parseInt(s)]: leading white space, a sign, a [0x] prefix, then the
    longest run of digits; NaN when there is none. A run of digits whose
    value is not a safe integer is outside the fragment ([None]): the
    program gets the double nearest to it. *)
Definition parseInt (s : string) : option JS.number :=
  let s := drop_spaces s in
  let '(negative, s) :=
    match s with
    | String "-" rest => (true, rest)
    | String "+" rest => (false, rest)
    | _ => (false, s)
    end in
  let magnitude :=
    match strip_hex_prefix s with
    | Some rest => leading_digits 16 hex_value None rest
    | None => leading_digits 10 digit_value None s
    end in
  match magnitude with
  | Some v =>
      if JS.is_safe_integer v then Some (JS.of_Z (if negative then - v else v))
      else None
  | None => Some JS.NaN
  end.

(** [String(n)] for a natural number. *)
Definition of_nat (n : nat) : string := NilZero.string_of_uint (Nat.to_uint n).

(** [s.padStart(width, fill)] for a fill of one character. *)
Definition padStart (width : nat) (fill : ascii) (s : string) : string :=
  String.app (string_of_list_ascii (repeat fill (width - String.length s))) s.

End Str.

(** ** Duration strings *)

(** [parseDuration(duration)], lines 217-225. The result is [None] only when
    a field is outside the fragment of [Str.Number] or of [Str.parseInt]. *)
Definition parseDuration (duration : string) : option JS.number :=
  let parts := map Str.Number (Str.split ":" duration) in
  match parts with
  | [p0; p1; p2] =>
      match p0, p1, p2 with
      | Some h, Some m, Some s =>
          Some (JS.add (JS.add (JS.mul h (JS.of_Z 3600)) (JS.mul m (JS.of_Z 60))) s)
      | _, _, _ => None
      end
  | [p0; p1] =>
      match p0, p1 with
      | Some m, Some s => Some (JS.add (JS.mul m (JS.of_Z 60)) s)
      | _, _ => None
      end
  | _ => Str.parseInt duration
  end.

(** ** Property lookup in an object literal *)

(** What [object[key]] can give for an object literal whose own properties
    are strings: the own string, [undefined], or the member of
    [Object.prototype] of that name (a function or an object). *)
Inductive value : Type :=
| VString (s : string)
| VUndefined
| VInherited (name : string).

(** The names every object literal inherits from [Object.prototype]. *)
Definition Object_prototype : list string :=
  [ "constructor"; "hasOwnProperty"; "isPrototypeOf"; "propertyIsEnumerable";
    "toLocaleString"; "toString"; "valueOf"; "__proto__";
    "__defineGetter__"; "__defineSetter__"; "__lookupGetter__";
    "__lookupSetter__" ].

Definition get_property (own : gmap string string) (key : string) : value :=
  match own !! key with
  | Some v => VString v
  | None => if bool_decide (key ∈ Object_prototype) then VInherited key else VUndefined
  end.

Definition truthy (v : value) : bool :=
  match v with
  | VString s => negb (String.eqb s "")
  | VUndefined => false
  | VInherited _ => true
  end.

(** [a || b] *)
Definition or_else (a b : value) : value := if truthy a then a else b.

(** The key a property access makes of a string that may be absent. *)
Definition property_key (tag : option string) : string :=
  match tag with
  | Some s => s
  | None => "undefined"
  end.

(** Lines 149-153. *)
Definition resolutionMap : gmap string string :=
  <["480p" := "854x480"]> (<["720p" := "1280x720"]> (<["1080p" := "1920x1080"]> ∅)).

(** Line 154: [resolutionMap[data.resolution] || '1280x720']. *)
Definition targetResolution (resolution : option string) : value :=
  or_else (get_property resolutionMap (property_key resolution)) (VString "1280x720").

(** ** Jobs *)

Inductive Status : Type := queued | processing | completed | failed.

Global Instance Status_eq_dec : EqDecision Status.
Proof. solve_decision. Defined.

(** The request body, as the handler destructures it (lines 87-95), for a
    body of the documented types: [videoUrls] an array of strings or absent,
    [interval] and [montageLength] numbers (NaN stands for an absent field,
    which the division of line 146 reads as [undefined]; [PInf] is what
    [JSON.parse] makes of a literal such as [1e999]). Bodies of other types
    (a string for [videoUrls], [null] for a number) are not modelled. *)
Record Request : Type := {
  req_videoUrls : option (list string);
  req_interval : JS.number;
  req_montageLength : JS.number;
  req_resolution : option string;
  req_overlayText : option string;
  req_fontSize : option JS.number;
  req_customFilename : option string
}.

(** The [data] of a job: the fields of a request that passed the check of
    line 97, so that [videoUrls] is an array. *)
Record MontageData : Type := {
  videoUrls : list string;
  interval : JS.number;
  montageLength : JS.number;
  resolution : option string;
  overlayText : option string;
  fontSize : option JS.number;
  customFilename : option string
}.

Record Job : Type := {
  id : string;
  type : string;
  status : Status;
  progress : JS.number;
  createdAt : Z;
  data : MontageData;
  error : option string;
  completedAt : option Z;
  downloadUrl : option string;
  outputFile : option string
}.

Definition set_status (s : Status) (j : Job) : Job :=
  {| id := id j; type := type j; status := s; progress := progress j;
     createdAt := createdAt j; data := data j; error := error j;
     completedAt := completedAt j; downloadUrl := downloadUrl j;
     outputFile := outputFile j |}.

Definition set_progress (p : JS.number) (j : Job) : Job :=
  {| id := id j; type := type j; status := status j; progress := p;
     createdAt := createdAt j; data := data j; error := error j;
     completedAt := completedAt j; downloadUrl := downloadUrl j;
     outputFile := outputFile j |}.

Definition set_error (e : string) (j : Job) : Job :=
  {| id := id j; type := type j; status := status j; progress := progress j;
     createdAt := createdAt j; data := data j; error := Some e;
     completedAt := completedAt j; downloadUrl := downloadUrl j;
     outputFile := outputFile j |}.

Definition set_completedAt (t : Z) (j : Job) : Job :=
  {| id := id j; type := type j; status := status j; progress := progress j;
     createdAt := createdAt j; data := data j; error := error j;
     completedAt := Some t; downloadUrl := downloadUrl j;
     outputFile := outputFile j |}.

Definition set_downloadUrl (u : string) (j : Job) : Job :=
  {| id := id j; type := type j; status := status j; progress := progress j;
     createdAt := createdAt j; data := data j; error := error j;
     completedAt := completedAt j; downloadUrl := Some u;
     outputFile := outputFile j |}.

Definition set_outputFile (f : string) (j : Job) : Job :=
  {| id := id j; type := type j; status := status j; progress := progress j;
     createdAt := createdAt j; data := data j; error := error j;
     completedAt := completedAt j; downloadUrl := downloadUrl j;
     outputFile := Some f |}.

(** ** The world outside the process *)

Inductive result (A : Type) : Type :=
| Ok (a : A)
| Err (message : string).
Arguments Ok {A} a.
Arguments Err {A} message.

(** The outcome of every call the pipeline makes outside itself. Calls made
    in the clip loop are indexed by the loop counter [i]. *)
Record Env : Type := {
  uuidv4 : string;
  createdTime : Z;
  completedTime : Z;
  (** [which command] exits with status zero *)
  which : string -> bool;
  tmpdir : string;
  path_join : string -> string -> string;
  (** [fs.mkdtempSync(prefix)], called once *)
  mkdtempSync : result string;
  (** standard output of [yt-dlp --get-duration] in iteration [i] *)
  ytdlp_get_duration : nat -> result string;
  (** [Math.random()] in iteration [i] *)
  Math_random : nat -> Q;
  (** the download of iteration [i] *)
  ytdlp_download : nat -> result unit;
  (** [fs.writeFileSync(path, content)], called once *)
  writeFileSync : result unit;
  (** the run of ffmpeg *)
  ffmpeg : result unit
}.

(** What the pipeline asked of the outside, in order. *)
Inductive Call : Type :=
| CallWhich (command : string)
| CallMkdtemp (prefix : string)
| CallGetVideoDuration (i : nat) (url : option string)
| CallDownloadClip (i : nat) (url : option string) (startTime : option JS.number)
    (duration : JS.number) (outputFile : string)
| CallWriteFile (path content : string)
| CallCreateMontage (clipList outputFile : string) (resolution : value)
    (overlay : option string) (fontSize : JS.number).

(** Lines 17-23: the answer of the process [which command]. *)
Definition commandExists (env : Env) (command : string) : bool := which env command.

(** Lines 26-36: the trimmed standard output, or the error of the process. *)
Definition getVideoDuration (env : Env) (i : nat) : result string :=
  match ytdlp_get_duration env i with
  | Ok stdout => Ok (Str.trim stdout)
  | Err e => Err e
  end.

(** Lines 39-51. *)
Definition downloadClip (env : Env) (i : nat) (outputFile : string) : result string :=
  match ytdlp_download env i with
  | Ok _ => Ok outputFile
  | Err e => Err e
  end.

(** Lines 59-63: the text overlay is drawn only for a truthy [overlayText]. *)
Definition overlay_of (overlayText : option string) : option string :=
  match overlayText with
  | Some t => if String.eqb t "" then None else Some t
  | None => None
  end.

(** Lines 54-75. *)
Definition createMontage (env : Env) (outputFile : string) : result string :=
  match ffmpeg env with
  | Ok _ => Ok outputFile
  | Err e => Err e
  end.

(** ** The pipeline *)

(** The job object the pipeline holds, the registry [jobs], the job as it
    was at every [jobs.set] (oldest first) and the calls made so far. The
    job object is the one stored in the registry; it is only read between
    two suspension points, and before each of them the pipeline has called
    [jobs.set], so [updates] lists every state a reader can see. *)
Record State : Type := {
  job : Job;
  jobs : gmap string Job;
  updates : list Job;
  calls : list Call
}.

Definition mutate (f : Job -> Job) (st : State) : State :=
  {| job := f (job st); jobs := jobs st; updates := updates st; calls := calls st |}.

(** [jobs.set(jobId, job)] *)
Definition jobs_set (jobId : string) (st : State) : State :=
  {| job := job st; jobs := <[jobId := job st]> (jobs st);
     updates := (updates st ++ [job st])%list; calls := calls st |}.

Definition call (c : Call) (st : State) : State :=
  {| job := job st; jobs := jobs st; updates := updates st; calls := (calls st ++ [c])%list |}.

(** Lines 209-214: the handler of the outer [try]. *)
Definition catch (jobId : string) (message : string) (st : State) : State :=
  jobs_set jobId (mutate (set_error message) (mutate (set_status failed) st)).

(** Line 146. *)
Definition clipsNeeded (data : MontageData) : JS.number :=
  JS.floor (JS.div (montageLength data) (interval data)).

(** Line 145: [data.customFilename || "montage"]. *)
Definition scriptName (data : MontageData) : string :=
  match customFilename data with
  | Some name => if String.eqb name "" then "montage" else name
  | None => "montage"
  end.

(** Line 194: [data.fontSize || 48]. *)
Definition fontSize_or_default (data : MontageData) : JS.number :=
  match fontSize data with
  | Some (JS.Fin q) => if Qeq_bool q 0 then JS.of_Z 48 else JS.Fin q
  | Some JS.NaN | None => JS.of_Z 48
  | Some n => n
  end.

(** Line 162: [data.videoUrls[0]]. *)
Definition first_url (data : MontageData) : option string := head (videoUrls data).

(** Line 167. *)
Definition maxStart (durationSeconds interval : JS.number) : JS.number :=
  JS.max (JS.of_Z 0) (JS.sub durationSeconds interval).

(** Line 168, with [random] the value of [Math.random()]. *)
Definition startTime (random : Q) (maxStart : JS.number) : JS.number :=
  JS.floor (JS.mul (JS.Fin random) maxStart).

(** Line 170. *)
Definition clipFile (env : Env) (workspace : string) (i : nat) : string :=
  path_join env workspace
    ("clip_" +:+ Str.padStart 2 "0" (Str.of_nat (i + 1)) +:+ ".mp4").

(** Line 174. *)
Definition clipProgress (i : nat) (needed : JS.number) : JS.number :=
  JS.add (JS.of_Z 20) (JS.mul (JS.div (JS.of_nat i) needed) (JS.of_Z 40)).

(** The body of the loop, lines 162-178, for the counter [i]; [clips] is the
    array of the files downloaded so far. *)
Definition clipStep (env : Env) (jobId : string) (data : MontageData)
  (workspace : string) (needed : JS.number) (i : nat)
  (s : State * list string) : State * list string :=
  let '(st, clips) := s in
  let url := first_url data in
  let st := call (CallGetVideoDuration i url) st in
  match getVideoDuration env i with
  | Err _ => (st, clips)
  | Ok duration =>
      let start :=
        match parseDuration duration with
        | Some durationSeconds =>
            Some (startTime (Math_random env i) (maxStart durationSeconds (interval data)))
        | None => None
        end in
      let file := clipFile env workspace i in
      let st := call (CallDownloadClip i url start (interval data) file) st in
      match downloadClip env i file with
      | Err _ => (st, clips)
      | Ok _ =>
          (jobs_set jobId (mutate (set_progress (clipProgress i needed)) st),
           (clips ++ [file])%list)
      end
  end.

(** The loop of lines 161-179 from the counter [i] on, for at most [fuel]
    turns. The boolean tells whether the loop was left. *)
Fixpoint clipLoop (fuel : nat) (env : Env) (jobId : string) (data : MontageData)
  (workspace : string) (needed : JS.number) (i : nat)
  (s : State * list string) : State * list string * bool :=
  if JS.lt (JS.of_nat i) needed then
    match fuel with
    | O => (s, false)
    | S fuel' =>
        clipLoop fuel' env jobId data workspace needed (S i)
          (clipStep env jobId data workspace needed i s)
    end
  else (s, true).

Definition newline : string := String "010" "".

(** Line 186. *)
Definition clipListContent (clips : list string) : string :=
  Str.join newline (map (fun clip => "file '" +:+ clip +:+ "'") clips).

(** Lines 181-207: what follows the loop. *)
Definition finishMontage (env : Env) (jobId : string) (data : MontageData)
  (workspace : string) (st : State) (clips : list string) : State :=
  let st := jobs_set jobId (mutate (set_progress (JS.of_Z 60)) st) in
  let clipList := path_join env workspace "clip_list.txt" in
  let content := clipListContent clips in
  let st := call (CallWriteFile clipList content) st in
  match writeFileSync env with
  | Err message => catch jobId message st
  | Ok _ =>
      let st := jobs_set jobId (mutate (set_progress (JS.of_Z 70)) st) in
      let output := path_join env workspace (scriptName data +:+ "_v01.mp4") in
      let st :=
        call (CallCreateMontage clipList output (targetResolution (resolution data))
                (overlay_of (overlayText data)) (fontSize_or_default data)) st in
      match createMontage env output with
      | Err message => catch jobId message st
      | Ok _ =>
          let st := jobs_set jobId (mutate (set_progress (JS.of_Z 90)) st) in
          let url := "/api/download/" +:+ jobId in
          let st := mutate (set_status completed) st in
          let st := mutate (set_progress (JS.of_Z 100)) st in
          let st := mutate (set_completedAt (completedTime env)) st in
          let st := mutate (set_downloadUrl url) st in
          let st := mutate (set_outputFile output) st in
          jobs_set jobId st
      end
  end.

(** What a run of the pipeline leaves: the registry, the job as it was at
    every [jobs.set], the calls made, and whether the function returned
    ([false] when the fuel ran out inside the loop). *)
Record Run : Type := {
  run_jobs : gmap string Job;
  run_updates : list Job;
  run_calls : list Call;
  run_returned : bool
}.

Definition stop (returned : bool) (st : State) : Run :=
  {| run_jobs := jobs st; run_updates := updates st; run_calls := calls st;
     run_returned := returned |}.

(** [processMontage(jobId, data)], lines 123-215, with at most [fuel] turns
    of the clip loop. *)
Definition processMontage (fuel : nat) (env : Env) (registry : gmap string Job)
  (jobId : string) (data : MontageData) : Run :=
  match registry !! jobId with
  | None =>
      {| run_jobs := registry; run_updates := []; run_calls := []; run_returned := true |}
  | Some j =>
      let st := {| job := j; jobs := registry; updates := []; calls := [] |} in
      let st := call (CallWhich "ffmpeg") st in
      let hasFFmpeg := commandExists env "ffmpeg" in
      let st := call (CallWhich "yt-dlp") st in
      let hasYtDlp := commandExists env "yt-dlp" in
      if negb hasFFmpeg || negb hasYtDlp then
        stop true
          (jobs_set jobId
             (mutate (set_error "Missing dependencies: FFmpeg and yt-dlp are required")
                (mutate (set_status failed) st)))
      else
        let st := jobs_set jobId
                    (mutate (set_progress (JS.of_Z 10)) (mutate (set_status processing) st)) in
        let prefix := path_join env (tmpdir env) "montage-" in
        let st := call (CallMkdtemp prefix) st in
        match mkdtempSync env with
        | Err message => stop true (catch jobId message st)
        | Ok workspace =>
            let needed := clipsNeeded data in
            let st := jobs_set jobId (mutate (set_progress (JS.of_Z 20)) st) in
            match clipLoop fuel env jobId data workspace needed 0 (st, []) with
            | (s, false) => stop false (fst s)
            | (s, true) =>
                stop true (finishMontage env jobId data workspace (fst s) (snd s))
            end
        end
  end.

(** ** The handler of [POST /api/generate-montage] *)

Inductive Response : Type :=
| Response200 (jobId : string) (status : Status)
| Response400 (error : string).

Definition newJob (env : Env) (data : MontageData) : Job :=
  {| id := uuidv4 env; type := "montage"; status := queued; progress := JS.of_Z 0;
     createdAt := createdTime env; data := data; error := None;
     completedAt := None; downloadUrl := None; outputFile := None |}.

Definition data_of (req : Request) (urls : list string) : MontageData :=
  {| videoUrls := urls; interval := req_interval req;
     montageLength := req_montageLength req; resolution := req_resolution req;
     overlayText := req_overlayText req; fontSize := req_fontSize req;
     customFilename := req_customFilename req |}.

(** Lines 85-121. The response and, for an accepted request, the run of the
    pipeline that the handler starts; its [run_updates] begin with the job
    as the handler stored it (line 111). *)
Definition generateMontage (fuel : nat) (env : Env) (registry : gmap string Job)
  (req : Request) : Response * option Run :=
  match req_videoUrls req with
  | None | Some [] => (Response400 "At least one video URL is required", None)
  | Some urls =>
      let jobId := uuidv4 env in
      let j := newJob env (data_of req urls) in
      let registry := <[jobId := j]> registry in
      let r := processMontage fuel env registry jobId (data j) in
      (Response200 jobId queued,
       Some {| run_jobs := run_jobs r; run_updates := j :: run_updates r;
               run_calls := run_calls r; run_returned := run_returned r |})
  end.

(** ** Runs on concrete inputs *)

Definition posix_join (a b : string) : string := a +:+ "/" +:+ b.

(** An environment where every tool is present and every call succeeds;
    the probe prints [0:40] and [Math.random()] gives one half. *)
Definition env_ok : Env :=
  {| uuidv4 := "job-1"; createdTime := 1000; completedTime := 2000;
     which := fun _ => true; tmpdir := "/tmp"; path_join := posix_join;
     mkdtempSync := Ok "/tmp/montage-abc123";
     ytdlp_get_duration := fun _ => Ok ("0:40" +:+ newline);
     Math_random := fun _ => 1 # 2;
     ytdlp_download := fun _ => Ok tt;
     writeFileSync := Ok tt;
     ffmpeg := Ok tt |}.

(** An environment where no tool is installed. *)
Definition env_no_tools : Env :=
  {| uuidv4 := "job-1"; createdTime := 1000; completedTime := 2000;
     which := fun _ => false; tmpdir := "/tmp"; path_join := posix_join;
     mkdtempSync := Ok "/tmp/montage-abc123";
     ytdlp_get_duration := fun _ => Ok ("0:40" +:+ newline);
     Math_random := fun _ => 1 # 2;
     ytdlp_download := fun _ => Ok tt;
     writeFileSync := Ok tt;
     ffmpeg := Ok tt |}.

(** An environment where every probe fails. *)
Definition env_no_clip : Env :=
  {| uuidv4 := "job-1"; createdTime := 1000; completedTime := 2000;
     which := fun _ => true; tmpdir := "/tmp"; path_join := posix_join;
     mkdtempSync := Ok "/tmp/montage-abc123";
     ytdlp_get_duration := fun _ => Err "Command failed: yt-dlp --get-duration";
     Math_random := fun _ => 1 # 2;
     ytdlp_download := fun _ => Ok tt;
     writeFileSync := Ok tt;
     ffmpeg := Ok tt |}.

(** An environment where the encoder fails. *)
Definition env_no_encode : Env :=
  {| uuidv4 := "job-1"; createdTime := 1000; completedTime := 2000;
     which := fun _ => true; tmpdir := "/tmp"; path_join := posix_join;
     mkdtempSync := Ok "/tmp/montage-abc123";
     ytdlp_get_duration := fun _ => Ok ("0:40" +:+ newline);
     Math_random := fun _ => 1 # 2;
     ytdlp_download := fun _ => Ok tt;
     writeFileSync := Ok tt;
     ffmpeg := Err "Command failed: ffmpeg -f concat" |}.

(** An environment where the probe prints an empty line. *)
Definition env_blank : Env :=
  {| uuidv4 := "job-1"; createdTime := 1000; completedTime := 2000;
     which := fun _ => true; tmpdir := "/tmp"; path_join := posix_join;
     mkdtempSync := Ok "/tmp/montage-abc123";
     ytdlp_get_duration := fun _ => Ok newline;
     Math_random := fun _ => 1 # 2;
     ytdlp_download := fun _ => Ok tt;
     writeFileSync := Ok tt;
     ffmpeg := Ok tt |}.

(** A request with no overlay, font size or file name. *)
Definition request (urls : list string) (interval montageLength : Z)
  (resolution : option string) : Request :=
  {| req_videoUrls := Some urls; req_interval := JS.of_Z interval;
     req_montageLength := JS.of_Z montageLength; req_resolution := resolution;
     req_overlayText := None; req_fontSize := None; req_customFilename := None |}.


Definition updates_of (r : Response * option Run) : list Job :=
  match snd r with
  | Some run => run_updates run
  | None => []
  end.

Definition calls_of (r : Response * option Run) : list Call :=
  match snd r with
  | Some run => run_calls run
  | None => []
  end.

(** ** The handlers that read the registry *)

Inductive StatusResponse : Type :=
| Status200 (body : Job)
| Status404 (error : string).

(** [GET /api/job-status/:jobId], lines 227-234. *)
Definition getJobStatus (registry : gmap string Job) (jobId : string) : StatusResponse :=
  match registry !! jobId with
  | None => Status404 "Job not found"
  | Some j => Status200 j
  end.

Inductive DownloadResponse : Type :=
| Download (path filename : string)
| Download404 (error : string).

(** [GET /api/download/:jobId], lines 236-249, with [existsSync] the answer
    of [fs.existsSync]. An output file that is the empty string is falsy. *)
Definition getDownload (existsSync : string -> bool) (registry : gmap string Job)
  (jobId : string) : DownloadResponse :=
  match registry !! jobId with
  | None => Download404 "File not found"
  | Some j =>
      match status j, outputFile j with
      | completed, Some file =>
          if String.eqb file "" then Download404 "File not found"
          else if existsSync file
               then Download file (scriptName (data j) +:+ "_v01.mp4")
               else Download404 "File not found on disk"
      | _, _ => Download404 "File not found"
      end
  end.

(** The registry holds, under [jobId], the job stored last, and is the
    registry [before] when nothing was stored. *)
Definition Stored (before : gmap string Job) (jobId : string) (st : State) : Prop :=
  jobs st = match last (updates st) with
            | Some u => <[jobId := u]> before
            | None => before
            end.

(** The job object and every stored job satisfy [P]. *)
Definition Kept (P : Job -> Prop) (st : State) : Prop :=
  P (job st) /\ Forall P (updates st).

(** The progress of the jobs stored after the loop: 60, then 70 when the
    manifest was written, then 90 and 100 when the encoder succeeded; a
    failure stores the progress reached once more. *)
Definition closing_progress (env : Env) : list JS.number :=
  match writeFileSync env with
  | Err _ => [JS.of_Z 60; JS.of_Z 60]
  | Ok _ =>
      match ffmpeg env with
      | Err _ => [JS.of_Z 60; JS.of_Z 70; JS.of_Z 70]
      | Ok _ => [JS.of_Z 60; JS.of_Z 70; JS.of_Z 90; JS.of_Z 100]
      end
  end.

(** The file name of the clip of turn [i] (line 170). *)
Definition clipName (i : nat) : string :=
  "clip_" +:+ Str.padStart 2 "0" (Str.of_nat (i + 1)) +:+ ".mp4".

(** The character does not occur in the string. *)
Fixpoint lacks (c : ascii) (s : string) : bool :=
  match s with
  | EmptyString => true
  | String a rest => negb (Ascii.eqb a c) && lacks c rest
  end.

(** ** Vocabulary of the properties *)

(** [count] turns of the loop from the counter [i] on. *)
Fixpoint clipSteps (env : Env) (jobId : string) (data : MontageData)
  (workspace : string) (needed : JS.number) (i count : nat)
  (s : State * list string) : State * list string :=
  match count with
  | O => s
  | S count' =>
      clipSteps env jobId data workspace needed (S i) count'
        (clipStep env jobId data workspace needed i s)
  end.

(** A clip is attempted when its duration is probed: the first call of a
    turn of the loop. *)
Definition is_attempt (c : Call) : bool :=
  match c with
  | CallGetVideoDuration _ _ => true
  | _ => false
  end.

Definition attempts (cs : list Call) : nat := length (List.filter is_attempt cs).

(** The url a call asks a clip from. *)
Definition source_of (c : Call) : option (option string) :=
  match c with
  | CallGetVideoDuration _ url => Some url
  | CallDownloadClip _ url _ _ _ => Some url
  | _ => None
  end.

(** The clip of turn [i] is kept when the probe and the download both
    succeed. *)
Definition clip_succeeds (env : Env) (i : nat) : bool :=
  match ytdlp_get_duration env i, ytdlp_download env i with
  | Ok _, Ok _ => true
  | _, _ => false
  end.

(** The files of the clips kept among the first [n]. *)
Definition kept_clips (env : Env) (workspace : string) (n : nat) : list string :=
  map (clipFile env workspace) (List.filter (clip_succeeds env) (seq 0 n)).

Definition both_tools (env : Env) : Prop :=
  which env "ffmpeg" = true /\ which env "yt-dlp" = true.

Definition progress_le (a b : Job) : Prop := JS.le (progress a) (progress b).

(** The messages a job can fail with. *)
Definition failure_message (env : Env) (message : string) : Prop :=
  message = "Missing dependencies: FFmpeg and yt-dlp are required"
  \/ mkdtempSync env = Err message
  \/ writeFileSync env = Err message
  \/ ffmpeg env = Err message.

(** The four shapes of a job that a reader can see. *)
Inductive Snapshot (env : Env) (j : Job) : Prop :=
| snapshot_queued :
    status j = queued -> progress j = JS.of_Z 0 ->
    error j = None -> outputFile j = None -> Snapshot env j
| snapshot_processing :
    status j = processing -> JS.within (inject_Z 10) (inject_Z 90) (progress j) ->
    error j = None -> outputFile j = None -> Snapshot env j
| snapshot_failed message :
    status j = failed -> JS.within (inject_Z 0) (inject_Z 90) (progress j) ->
    error j = Some message -> failure_message env message ->
    outputFile j = None -> Snapshot env j
| snapshot_completed workspace name :
    status j = completed -> progress j = JS.of_Z 100 ->
    error j = None -> mkdtempSync env = Ok workspace ->
    outputFile j = Some (path_join env workspace name) -> Snapshot env j.

(** The state of the pipeline while the job is being processed: the job
    object has no error and no output, what was stored is sorted by
    progress, and nothing stored is ahead of the job object. *)
Definition Pending (env : Env) (st : State) : Prop :=
  status (job st) = processing
  /\ error (job st) = None
  /\ outputFile (job st) = None
  /\ JS.within (inject_Z 10) (inject_Z 90) (progress (job st))
  /\ StronglySorted progress_le (updates st)
  /\ Forall (fun u => Snapshot env u /\ progress_le u (job st)) (updates st).

(** The updates end with a job in processing followed by a job whose
    status is failed and whose error is [message], with the progress and
    every other field of the job before it. *)
Definition fails_with (message : string) (us : list Job) : Prop :=
  exists before prev last,
    us = (before ++ [prev; last])%list
    /\ status prev = processing
    /\ status last = failed
    /\ error last = Some message
    /\ progress last = progress prev
    /\ id last = id prev /\ type last = type prev /\ createdAt last = createdAt prev
    /\ data last = data prev /\ completedAt last = completedAt prev
    /\ downloadUrl last = downloadUrl prev /\ outputFile last = outputFile prev.

(** The calls of turn [i] of the loop. *)
Definition turn_calls (env : Env) (data : MontageData) (workspace : string)
  (i : nat) : list Call :=
  CallGetVideoDuration i (first_url data) ::
  match getVideoDuration env i with
  | Ok duration =>
      [CallDownloadClip i (first_url data)
         (match parseDuration duration with
          | Some durationSeconds =>
              Some (startTime (Math_random env i)
                      (maxStart durationSeconds (interval data)))
          | None => None
          end)
         (interval data) (clipFile env workspace i)]
  | Err _ => []
  end.

(** The calls of the manifest and encode stages for the clips [clips]: the
    manifest is written, and the encoder is run when that succeeded. *)
Definition closing_calls (env : Env) (data : MontageData) (workspace : string)
  (clips : list string) : list Call :=
  CallWriteFile (path_join env workspace "clip_list.txt") (clipListContent clips) ::
  match writeFileSync env with
  | Ok _ =>
      [CallCreateMontage (path_join env workspace "clip_list.txt")
         (path_join env workspace (scriptName data +:+ "_v01.mp4"))
         (targetResolution (resolution data)) (overlay_of (overlayText data))
         (fontSize_or_default data)]
  | Err _ => []
  end.

(** The state of the pipeline when it enters the loop (lines 124-157). *)
Definition before_loop (env : Env) (registry : gmap string Job) (jobId : string)
  (j : Job) : State :=
  jobs_set jobId
    (mutate (set_progress (JS.of_Z 20))
       (call (CallMkdtemp (path_join env (tmpdir env) "montage-"))
          (jobs_set jobId
             (mutate (set_progress (JS.of_Z 10))
                (mutate (set_status processing)
                   (call (CallWhich "yt-dlp")
                      (call (CallWhich "ffmpeg")
                         {| job := j; jobs := registry; updates := [];
                            calls := [] |}))))))).

(** What each call of a run tells about the environment: nothing for the
    two checks of the tools, and for every other call that both tools are
    present and that the stage before it succeeded. *)
Definition call_allowed (env : Env) (c : Call) : Prop :=
  match c with
  | CallWhich command => command = "ffmpeg" \/ command = "yt-dlp"
  | CallMkdtemp _ => both_tools env
  | CallGetVideoDuration _ _ =>
      both_tools env /\ exists workspace, mkdtempSync env = Ok workspace
  | CallDownloadClip i _ _ _ _ =>
      both_tools env /\ exists stdout, ytdlp_get_duration env i = Ok stdout
  | CallWriteFile _ _ =>
      both_tools env /\ exists workspace, mkdtempSync env = Ok workspace
  | CallCreateMontage _ _ _ _ _ => both_tools env /\ writeFileSync env = Ok tt
  end.

(** A job as the handler creates it. *)
Definition Fresh (j : Job) : Prop :=
  status j = queued /\ progress j = JS.of_Z 0 /\ error j = None /\ outputFile j = None.

(** The environment reports failures with a message, and [path.join] never
    gives the empty path. *)
Definition messages_nonempty (env : Env) : Prop :=
  (forall a b, path_join env a b <> "")
  /\ mkdtempSync env <> Err ""
  /\ writeFileSync env <> Err ""
  /\ ffmpeg env <> Err "".

(** The string is made of white space only. *)
Fixpoint all_spaces (s : string) : bool :=
  match s with
  | EmptyString => true
  | String c rest => Str.is_space c && all_spaces rest
  end.

(** Decimal fields and their values, the reference for the parser. *)
Fixpoint all_digits (s : string) : bool :=
  match s with
  | EmptyString => true
  | String c rest => Str.is_digit c && all_digits rest
  end.

Fixpoint decimal (s : string) : Z :=
  match s with
  | EmptyString => 0
  | String c rest =>
      (Z.of_nat (nat_of_ascii c) - 48) * 10 ^ Z.of_nat (String.length rest) + decimal rest
  end%Z.

(** * Properties *)

(** ** Properties of the duration parser *)

Section ParseDuration.

Lemma is_digit_not_colon c : Str.is_digit c = true -> Ascii.eqb c ":" = false.
Proof.
  intros H. destruct (Ascii.eqb_spec c ":") as [->|]; [discriminate H | reflexivity].
Qed.

Lemma split_digits s : all_digits s = true -> Str.split ":" s = [s].
Proof.
  induction s as [|c s IH]; simpl; [reflexivity|].
  intros [Hc Hs]%andb_prop. rewrite (is_digit_not_colon c Hc), (IH Hs). reflexivity.
Qed.

Lemma split_field s rest :
  all_digits s = true ->
  Str.split ":" (s +:+ String ":" rest) = s :: Str.split ":" rest.
Proof.
  induction s as [|c s IH]; simpl; [reflexivity|].
  intros [Hc Hs]%andb_prop. rewrite (is_digit_not_colon c Hc), (IH Hs). reflexivity.
Qed.

Lemma digits_from_decimal s : forall acc,
  all_digits s = true ->
  Str.digits_from 10 Str.digit_value acc s
  = Some (acc * 10 ^ Z.of_nat (String.length s) + decimal s)%Z.
Proof.
  induction s as [|c s IH]; intros acc H; simpl in *.
  - f_equal. lia.
  - apply andb_prop in H as [Hc Hs]. unfold Str.digit_value. rewrite Hc.
    rewrite (IH _ Hs). f_equal.
    rewrite Nat2Z.inj_succ, Z.pow_succ_r by lia. lia.
Qed.

Lemma decimal_nonneg s : all_digits s = true -> (0 <= decimal s)%Z.
Proof.
  induction s as [|c s IH]; simpl; [lia|].
  intros [Hc Hs]%andb_prop. specialize (IH Hs).
  unfold Str.is_digit in Hc. apply andb_prop in Hc as [Hc _].
  apply Nat.leb_le in Hc.
  assert (0 <= 10 ^ Z.of_nat (String.length s))%Z by (apply Z.pow_nonneg; lia).
  nia.
Qed.

Lemma safe_decimal s :
  all_digits s = true -> (decimal s < 2 ^ 53)%Z -> JS.is_safe_integer (decimal s) = true.
Proof.
  intros H Hb. pose proof (decimal_nonneg s H). unfold JS.is_safe_integer.
  apply Z.ltb_lt. lia.
Qed.

Lemma Number_digits s :
  all_digits s = true -> (decimal s < 2 ^ 53)%Z ->
  Str.Number s = Some (JS.of_Z (decimal s)).
Proof.
  intros H Hb. unfold Str.Number. rewrite (digits_from_decimal s 0 H).
  change (0 * 10 ^ Z.of_nat (String.length s) + decimal s)%Z with (decimal s).
  rewrite (safe_decimal s H Hb). reflexivity.
Qed.

Lemma leading_digits_decimal s : forall a,
  all_digits s = true ->
  Str.leading_digits 10 Str.digit_value (Some a) s
  = Some (a * 10 ^ Z.of_nat (String.length s) + decimal s)%Z.
Proof.
  induction s as [|c s IH]; intros a H; simpl in *.
  - f_equal. lia.
  - apply andb_prop in H as [Hc Hs]. unfold Str.digit_value. rewrite Hc.
    rewrite (IH _ Hs). f_equal.
    rewrite Nat2Z.inj_succ, Z.pow_succ_r by lia. lia.
Qed.

Lemma strip_hex_prefix_digits s :
  all_digits s = true -> Str.strip_hex_prefix s = None.
Proof.
  destruct s as [|c [|c2 rest]]; [reflexivity| |].
  - intros _. destruct c as [[] [] [] [] [] [] [] []]; reflexivity.
  - simpl. intros [_ [Hc2 _]%andb_prop]%andb_prop.
    destruct c as [[] [] [] [] [] [] [] []]; try reflexivity.
    destruct c2 as [[] [] [] [] [] [] [] []]; try reflexivity; discriminate Hc2.
Qed.

Lemma parseInt_digits s :
  all_digits s = true -> s <> "" -> (decimal s < 2 ^ 53)%Z ->
  Str.parseInt s = Some (JS.of_Z (decimal s)).
Proof.
  destruct s as [|c rest]; [congruence|]. intros H _ Hb.
  pose proof (safe_decimal _ H Hb) as Hsafe.
  pose proof (strip_hex_prefix_digits _ H) as Hhex.
  simpl in H. apply andb_prop in H as [Hc Hrest].
  assert (Hsp : Str.drop_spaces (String c rest) = String c rest).
  { destruct c as [[] [] [] [] [] [] [] []]; try discriminate Hc; reflexivity. }
  assert (Hld : Str.leading_digits 10 Str.digit_value None (String c rest)
                = Some (decimal (String c rest))).
  { simpl. unfold Str.digit_value. rewrite Hc.
    rewrite (leading_digits_decimal rest _ Hrest). reflexivity. }
  unfold Str.parseInt. rewrite Hsp.
  destruct c as [[] [] [] [] [] [] [] []]; try discriminate Hc;
    cbv beta iota zeta; rewrite Hhex, Hld, Hsafe; reflexivity.
Qed.

End ParseDuration.

(** C8. The duration parser reads [H:MM:SS] as hours*3600 + minutes*60 +
    seconds, [MM:SS] as minutes*60 + seconds, and a string of digits alone as
    its decimal value, for fields of decimal digits whose duration in
    seconds is below [2 ^ 53], the range where a number holds every integer
    exactly; ["1:02:03"] gives 3723, ["02:03"] gives 123 and ["45"] gives
    45. *)
Theorem parseDuration_forms (h m s : string) :
  all_digits h = true -> all_digits m = true -> all_digits s = true ->
  (decimal h * 3600 + decimal m * 60 + decimal s < 2 ^ 53)%Z ->
  parseDuration (h +:+ ":" +:+ m +:+ ":" +:+ s)
    = Some (JS.of_Z (decimal h * 3600 + decimal m * 60 + decimal s))
  /\ parseDuration (m +:+ ":" +:+ s) = Some (JS.of_Z (decimal m * 60 + decimal s))
  /\ (s <> "" -> parseDuration s = Some (JS.of_Z (decimal s)))
  /\ parseDuration "1:02:03" = Some (JS.of_Z 3723)
  /\ parseDuration "02:03" = Some (JS.of_Z 123)
  /\ parseDuration "45" = Some (JS.of_Z 45).
Proof.
  intros Hh Hm Hs Hbound.
  pose proof (decimal_nonneg h Hh) as Hh0.
  pose proof (decimal_nonneg m Hm) as Hm0.
  pose proof (decimal_nonneg s Hs) as Hs0.
  assert (Hhb : (decimal h < 2 ^ 53)%Z) by lia.
  assert (Hmb : (decimal m < 2 ^ 53)%Z) by lia.
  assert (Hsb : (decimal s < 2 ^ 53)%Z) by lia.
  assert (Hms : Str.split ":" (m +:+ ":" +:+ s) = [m; s]).
  { change (m +:+ ":" +:+ s) with (m +:+ String ":" s).
    rewrite (split_field m s Hm), (split_digits s Hs). reflexivity. }
  repeat split.
  - unfold parseDuration.
    change (h +:+ ":" +:+ m +:+ ":" +:+ s) with (h +:+ String ":" (m +:+ ":" +:+ s)).
    rewrite (split_field h _ Hh), Hms. simpl map.
    rewrite (Number_digits h Hh Hhb), (Number_digits m Hm Hmb), (Number_digits s Hs Hsb).
    unfold JS.of_Z, inject_Z, JS.mul, JS.add, Qplus, Qmult. simpl.
    do 3 f_equal. lia.
  - unfold parseDuration. rewrite Hms. simpl map.
    rewrite (Number_digits m Hm Hmb), (Number_digits s Hs Hsb).
    unfold JS.of_Z, inject_Z, JS.mul, JS.add, Qplus, Qmult. simpl.
    do 3 f_equal. lia.
  - intros Hne. unfold parseDuration. rewrite (split_digits s Hs). simpl map.
    rewrite (parseInt_digits s Hs Hne Hsb). reflexivity.
Qed.

Lemma parseDuration_forms_witness :
  parseDuration "1:02:03" = Some (JS.of_Z (1 * 3600 + 2 * 60 + 3))
  /\ parseDuration "02:03" = Some (JS.of_Z (2 * 60 + 3))
  /\ parseDuration "03" = Some (JS.of_Z 3).
Proof.
  destruct (parseDuration_forms "1" "02" "03" eq_refl eq_refl eq_refl eq_refl)
    as (H1 & H2 & H3 & _).
  split; [exact H1 | split; [exact H2 | apply H3; discriminate]].
Defined.

(** ** Properties of the resolution table *)

Lemma targetResolution_known :
  targetResolution (Some "480p") = VString "854x480"
  /\ targetResolution (Some "720p") = VString "1280x720"
  /\ targetResolution (Some "1080p") = VString "1920x1080"
  /\ targetResolution None = VString "1280x720".
Proof. repeat split; vm_compute; reflexivity. Qed.

(** A tag that is neither in the table nor a name of [Object.prototype]
    gets the dimensions of 720p. *)
Lemma targetResolution_default (tag : string) :
  tag <> "480p" -> tag <> "720p" -> tag <> "1080p" ->
  tag ∉ Object_prototype ->
  targetResolution (Some tag) = VString "1280x720".
Proof.
  intros H1 H2 H3 Hproto. unfold targetResolution, get_property, resolutionMap.
  simpl property_key.
  rewrite !lookup_insert_ne by congruence. rewrite lookup_empty.
  rewrite bool_decide_eq_false_2 by exact Hproto. reflexivity.
Qed.

(** C9. On the tag ["constructor"], which is not in the table, the lookup
    finds the member that every object inherits, so the default is not
    taken: the target resolution is that member and not ["1280x720"]. The
    same holds for every name of [Object.prototype]. *)
Theorem targetResolution_inherited :
  targetResolution (Some "constructor") = VInherited "constructor"
  /\ targetResolution (Some "constructor") <> VString "1280x720"
  /\ Forall (fun name => targetResolution (Some name) = VInherited name)
       Object_prototype.
Proof.
  split; [vm_compute; reflexivity|].
  split; [vm_compute; discriminate|].
  unfold Object_prototype. repeat (constructor; [vm_compute; reflexivity|]).
  constructor.
Qed.

(** ** Arithmetic of the loop guard and of the progress *)

Section Numbers.

Local Open Scope Q_scope.

Lemma floor_cases x :
  (exists z, JS.floor x = JS.of_Z z) \/ JS.floor x = JS.PInf
  \/ JS.floor x = JS.NInf \/ JS.floor x = JS.NaN.
Proof. destruct x; simpl; eauto. Qed.

Lemma lt_of_Z a b : JS.lt (JS.of_Z a) (JS.of_Z b) = true <-> (a < b)%Z.
Proof.
  unfold JS.lt, JS.of_Z, Qcompare. simpl. rewrite !Z.mul_1_r.
  unfold Z.lt. destruct (a ?= b)%Z; split; congruence.
Qed.

Lemma guard_cases i x :
  JS.lt (JS.of_nat i) (JS.floor x) = true ->
  (exists z, JS.floor x = JS.of_Z z /\ (Z.of_nat i < z)%Z) \/ JS.floor x = JS.PInf.
Proof.
  intros H. destruct (floor_cases x) as [[z Hz] | [Hx | [Hx | Hx]]];
    rewrite ?Hz, ?Hx in *; try discriminate H; [left | right; reflexivity].
  exists z. split; [reflexivity|]. apply lt_of_Z. exact H.
Qed.

Lemma clipProgress_finite i z :
  (Z.of_nat i < z)%Z ->
  clipProgress i (JS.of_Z z)
  = JS.Fin (inject_Z 20 + inject_Z (Z.of_nat i) / inject_Z z * inject_Z 40).
Proof.
  intros H. unfold clipProgress, JS.of_nat, JS.of_Z, JS.div.
  assert (Hz : (inject_Z z ?= 0) = Gt).
  { unfold Qcompare. simpl. rewrite Z.mul_1_r. apply Z.compare_gt_iff. lia. }
  rewrite Hz. reflexivity.
Qed.

Lemma clipProgress_PInf i :
  clipProgress i JS.PInf = JS.Fin (inject_Z 20 + 0 * inject_Z 40).
Proof. reflexivity. Qed.

Lemma ratio_bounds i z :
  (Z.of_nat i < z)%Z ->
  0 <= inject_Z (Z.of_nat i) / inject_Z z /\ inject_Z (Z.of_nat i) / inject_Z z <= 1.
Proof.
  intros H.
  assert (Hz : 0 < inject_Z z) by (change 0 with (inject_Z 0); rewrite <- Zlt_Qlt; lia).
  assert (Hi : 0 <= inject_Z (Z.of_nat i)) by (change 0 with (inject_Z 0); rewrite <- Zle_Qle; lia).
  assert (Hiz : inject_Z (Z.of_nat i) <= inject_Z z) by (rewrite <- Zle_Qle; lia).
  split.
  - apply Qle_shift_div_l; [exact Hz | lra].
  - apply Qle_shift_div_r; [exact Hz | lra].
Qed.

Lemma ratio_mono i j z :
  (i <= j)%nat -> (Z.of_nat j < z)%Z ->
  inject_Z (Z.of_nat i) / inject_Z z <= inject_Z (Z.of_nat j) / inject_Z z.
Proof.
  intros Hij H. unfold Qdiv. apply Qmult_le_compat_r.
  - rewrite <- Zle_Qle. lia.
  - apply Qinv_le_0_compat. change 0 with (inject_Z 0). rewrite <- Zle_Qle. lia.
Qed.

(** Inside the loop the progress of line 174 is a number from 20 to 60. *)
Lemma clipProgress_within i x :
  JS.lt (JS.of_nat i) (JS.floor x) = true ->
  JS.within (inject_Z 20) (inject_Z 60) (clipProgress i (JS.floor x)).
Proof.
  intros [(z & -> & Hz) | ->]%guard_cases.
  - rewrite (clipProgress_finite i z Hz). simpl.
    destruct (ratio_bounds i z Hz) as [H0 H1].
    set (r := inject_Z (Z.of_nat i) / inject_Z z) in *.
    change (inject_Z 20) with 20. change (inject_Z 40) with 40.
    change (inject_Z 60) with 60. lra.
  - rewrite clipProgress_PInf. simpl. split; compute; discriminate.
Qed.

(** It does not decrease from a turn to a later one. *)
Lemma clipProgress_mono i j x :
  (i <= j)%nat ->
  JS.lt (JS.of_nat j) (JS.floor x) = true ->
  JS.le (clipProgress i (JS.floor x)) (clipProgress j (JS.floor x)).
Proof.
  intros Hij [(z & -> & Hz) | ->]%guard_cases.
  - rewrite (clipProgress_finite i z), (clipProgress_finite j z Hz) by lia. simpl.
    pose proof (ratio_mono i j z Hij Hz) as Hm.
    set (a := inject_Z (Z.of_nat i) / inject_Z z) in *.
    set (b := inject_Z (Z.of_nat j) / inject_Z z) in *.
    change (inject_Z 20) with 20. change (inject_Z 40) with 40. lra.
  - rewrite !clipProgress_PInf. simpl. apply Qle_refl.
Qed.

Lemma le_trans a b c : JS.le a b -> JS.le b c -> JS.le a c.
Proof.
  destruct a, b, c; simpl; try tauto. apply Qle_trans.
Qed.

Lemma le_refl_within lo hi a : JS.within lo hi a -> JS.le a a.
Proof. destruct a; simpl; try tauto. intros _. apply Qle_refl. Qed.

Lemma within_weaken lo hi lo' hi' a :
  lo' <= lo -> hi <= hi' -> JS.within lo hi a -> JS.within lo' hi' a.
Proof.
  intros Hlo Hhi. destruct a; simpl; try tauto. intros [H1 H2]. split; lra.
Qed.

Lemma within_le_hi lo hi a : JS.within lo hi a -> JS.le a (JS.Fin hi).
Proof. destruct a; simpl; tauto. Qed.

Lemma within_ge_lo lo hi a : JS.within lo hi a -> JS.le (JS.Fin lo) a.
Proof. destruct a; simpl; tauto. Qed.

End Numbers.

(** ** What a reader of the registry can see *)

Section Trace.

Local Open Scope Q_scope.

Variable env : Env.
Variable jobId : string.

Lemma StronglySorted_snoc {A} (R : A -> A -> Prop) (l : list A) (x : A) :
  StronglySorted R l -> Forall (fun y => R y x) l -> StronglySorted R (l ++ [x])%list.
Proof.
  induction 1 as [|y l Hl IH Hy]; intros Hx; simpl.
  - repeat constructor.
  - inversion Hx; subst. constructor; [apply IH; assumption|].
    apply Forall_app. split; [assumption | repeat constructor; assumption].
Qed.

Lemma Pending_call c st : Pending env st -> Pending env (call c st).
Proof. exact (fun H => H). Qed.

Lemma Pending_emit st q :
  Pending env st ->
  JS.le (progress (job st)) q ->
  JS.within (inject_Z 10) (inject_Z 90) q ->
  Pending env (jobs_set jobId (mutate (set_progress q) st)).
Proof.
  intros (Hs & He & Ho & Hp & Hsorted & Hall) Hle Hq.
  assert (Hold : Forall (fun u => progress_le u (set_progress q (job st))) (updates st)).
  { eapply Forall_impl; [exact Hall|]. intros u [_ Hu].
    unfold progress_le in *. simpl. eapply le_trans; eassumption. }
  unfold Pending. simpl. repeat split; try assumption.
  - apply StronglySorted_snoc; assumption.
  - apply Forall_app. split.
    + eapply Forall_impl; [exact Hall|]. intros u [Hu Hle'].
      split; [exact Hu|]. unfold progress_le in *. simpl. eapply le_trans; eassumption.
    + apply Forall_singleton. split.
      * apply snapshot_processing; assumption.
      * unfold progress_le. simpl. eapply le_refl_within. exact Hq.
Qed.

(** The handler of the outer [try] stores a failed job with the progress
    the job had. *)
Lemma catch_trace st message :
  Pending env st -> failure_message env message ->
  StronglySorted progress_le (updates (catch jobId message st))
  /\ Forall (Snapshot env) (updates (catch jobId message st)).
Proof.
  intros (Hs & He & Ho & Hp & Hsorted & Hall) Hm. simpl. split.
  - apply StronglySorted_snoc; [assumption|].
    eapply Forall_impl; [exact Hall|]. intros u [_ Hu]. exact Hu.
  - apply Forall_app. split.
    + eapply Forall_impl; [exact Hall|]. intros u [Hu _]. exact Hu.
    + apply Forall_singleton.
      apply snapshot_failed with (message := message); simpl;
        try assumption; try reflexivity.
      eapply within_weaken; [| |exact Hp]; compute; discriminate.
Qed.

Variable data : MontageData.
Variable workspace : string.

Local Abbreviation needed := (clipsNeeded data).

Lemma clipStep_Pending i st clips :
  JS.lt (JS.of_nat i) needed = true ->
  Pending env st ->
  JS.le (progress (job st)) (clipProgress i needed) ->
  let st' := fst (clipStep env jobId data workspace needed i (st, clips)) in
  Pending env st' /\ JS.le (progress (job st')) (clipProgress i needed).
Proof.
  intros Hguard Hpend Hle. unfold clipStep.
  destruct (getVideoDuration env i); simpl; [|split; assumption].
  destruct (downloadClip env i _); simpl; [|split; assumption].
  pose proof (clipProgress_within i _ Hguard) as Hw. fold (clipsNeeded data) in Hw.
  split.
  - apply Pending_emit; [apply Pending_call, Pending_call, Hpend | exact Hle |].
    eapply within_weaken; [| |exact Hw]; compute; discriminate.
  - eapply le_refl_within. exact Hw.
Qed.

Lemma clipSteps_Pending count : forall i s,
  (forall j, (i <= j < i + count)%nat -> JS.lt (JS.of_nat j) needed = true) ->
  Pending env (fst s) ->
  JS.le (progress (job (fst s))) (JS.of_Z 60) ->
  (count <> O -> JS.le (progress (job (fst s))) (clipProgress i needed)) ->
  let s' := clipSteps env jobId data workspace needed i count s in
  Pending env (fst s') /\ JS.le (progress (job (fst s'))) (JS.of_Z 60).
Proof.
  induction count as [|count IH]; intros i [st clips] Hguard Hpend H60 Hle; simpl.
  - split; assumption.
  - assert (Hi : JS.lt (JS.of_nat i) needed = true) by (apply Hguard; lia).
    destruct (clipStep_Pending i st clips Hi Hpend (Hle ltac:(discriminate))) as [Hp' Hle'].
    apply IH.
    + intros j Hj. apply Hguard. lia.
    + exact Hp'.
    + eapply le_trans; [exact Hle'|].
      eapply within_le_hi. apply (clipProgress_within i _ Hi).
    + intros Hc. eapply le_trans; [exact Hle'|].
      apply clipProgress_mono; [lia|]. apply Hguard. lia.
Qed.

(** Whatever the fuel, the loop makes some number of turns, each under its
    guard. *)
Lemma clipLoop_steps fuel : forall i s,
  exists count,
    fst (clipLoop fuel env jobId data workspace needed i s)
    = clipSteps env jobId data workspace needed i count s
    /\ (count <= fuel)%nat
    /\ forall j, (i <= j < i + count)%nat -> JS.lt (JS.of_nat j) needed = true.
Proof.
  induction fuel as [|fuel IH]; intros i s; cbn [clipLoop];
    destruct (JS.lt (JS.of_nat i) needed) eqn:Hi;
    try (exists O; simpl; repeat split; try reflexivity; intros; lia).
  destruct (IH (S i) (clipStep env jobId data workspace needed i s))
    as (count & Heq & Hle & Hg).
  exists (S count). simpl. repeat split; [exact Heq | lia |].
  intros j Hj. destruct (Nat.eq_dec j i) as [->|]; [exact Hi | apply Hg; lia].
Qed.

End Trace.

Section Runs.

Local Open Scope Q_scope.

Variable env : Env.

Lemma Pending_trace st :
  Pending env st ->
  StronglySorted progress_le (updates st) /\ Forall (Snapshot env) (updates st).
Proof.
  intros (_ & _ & _ & _ & Hsorted & Hall). split; [exact Hsorted|].
  eapply Forall_impl; [exact Hall|]. intros u [Hu _]. exact Hu.
Qed.

Lemma finishMontage_trace jobId data workspace st clips :
  mkdtempSync env = Ok workspace ->
  Pending env st ->
  JS.le (progress (job st)) (JS.of_Z 60) ->
  let st' := finishMontage env jobId data workspace st clips in
  StronglySorted progress_le (updates st') /\ Forall (Snapshot env) (updates st').
Proof.
  intros Hws Hpend H60. unfold finishMontage, createMontage.
  assert (H1 : Pending env (jobs_set jobId (mutate (set_progress (JS.of_Z 60)) st))).
  { apply Pending_emit; [exact Hpend | exact H60 | split; compute; discriminate]. }
  destruct (writeFileSync env) as [[]|message] eqn:Hwrite.
  2:{ apply catch_trace; [apply Pending_call; exact H1 | right; right; left; exact Hwrite]. }
  set (st60 := call _ (jobs_set jobId (mutate (set_progress (JS.of_Z 60)) st))) in *.
  assert (H2 : Pending env (jobs_set jobId (mutate (set_progress (JS.of_Z 70)) st60))).
  { apply Pending_emit; [apply Pending_call; exact H1 | | split]; compute; discriminate. }
  destruct (ffmpeg env) as [[]|message] eqn:Hffmpeg.
  2:{ apply catch_trace; [apply Pending_call; exact H2 | right; right; right; exact Hffmpeg]. }
  set (st70 := call _ (jobs_set jobId (mutate (set_progress (JS.of_Z 70)) st60))) in *.
  assert (H3 : Pending env (jobs_set jobId (mutate (set_progress (JS.of_Z 90)) st70))).
  { apply Pending_emit; [apply Pending_call; exact H2 | | split]; compute; discriminate. }
  destruct H3 as (Hs & He & Ho & Hp & Hsorted & Hall). simpl in *. split.
  - apply StronglySorted_snoc; [exact Hsorted|].
    eapply Forall_impl; [exact Hall|]. intros u [_ Hu].
    unfold progress_le in *. simpl in *.
    eapply le_trans; [exact Hu|]. compute. discriminate.
  - apply Forall_app. split.
    + eapply Forall_impl; [exact Hall|]. intros u [Hu _]. exact Hu.
    + apply Forall_singleton.
      eapply snapshot_completed with (workspace := workspace); simpl;
        try reflexivity; assumption.
Qed.

Lemma started_Pending jobId st :
  Fresh (job st) -> updates st = [] ->
  Pending env
    (jobs_set jobId
       (mutate (set_progress (JS.of_Z 10)) (mutate (set_status processing) st))).
Proof.
  intros (Hs & Hp & He & Ho) Hnone. unfold Pending. simpl. rewrite Hnone. simpl.
  split; [reflexivity|]. split; [exact He|]. split; [exact Ho|].
  split; [split; compute; discriminate|]. split; [repeat constructor|].
  apply Forall_singleton. split; [|unfold progress_le; simpl; compute; discriminate].
  apply snapshot_processing; simpl; try assumption; try reflexivity.
  split; compute; discriminate.
Qed.

(** When the loop stops, for lack of fuel or because it is left, the job is
    still being processed and its progress is at most 60. *)
Lemma loop_Pending registry jobId data workspace j fuel st clips b :
  Fresh j ->
  clipLoop fuel env jobId data workspace (clipsNeeded data) 0
    (before_loop env registry jobId j, []) = (st, clips, b) ->
  Pending env st /\ JS.le (progress (job st)) (JS.of_Z 60).
Proof.
  intros Hfresh Hloop.
  assert (H20 : Pending env (before_loop env registry jobId j)).
  { apply Pending_emit;
      [apply Pending_call, started_Pending; [exact Hfresh | reflexivity]| |split];
      compute; discriminate. }
  destruct (clipLoop_steps env jobId data workspace fuel 0 (before_loop env registry jobId j, []))
    as (count & Heq & _ & Hguard).
  rewrite Hloop in Heq. cbn [fst] in Heq.
  change st with (fst (st, clips)). rewrite Heq.
  apply clipSteps_Pending; [exact Hguard | exact H20 | compute; discriminate |].
  intros Hc.
  change (progress (job (fst (before_loop env registry jobId j, []))))
    with (JS.Fin (inject_Z 20)).
  eapply within_ge_lo. apply clipProgress_within. apply Hguard. lia.
Qed.

Lemma processMontage_trace fuel registry jobId data j :
  registry !! jobId = Some j -> Fresh j ->
  let r := processMontage fuel env registry jobId data in
  StronglySorted progress_le (run_updates r) /\ Forall (Snapshot env) (run_updates r).
Proof.
  intros Hj Hfresh. unfold processMontage, commandExists. rewrite Hj.
  destruct (negb (which env "ffmpeg") || negb (which env "yt-dlp")).
  { destruct Hfresh as (Hs & Hp & He & Ho).
    simpl. split; [repeat constructor|]. apply Forall_singleton.
    apply snapshot_failed
      with (message := "Missing dependencies: FFmpeg and yt-dlp are required");
      simpl; try assumption; try reflexivity; [|left; reflexivity].
    rewrite Hp. split; compute; discriminate. }
  cbv zeta. destruct (mkdtempSync env) as [workspace|message] eqn:Hws.
  2:{ unfold stop; cbn [run_updates].
      apply catch_trace; [|right; left; exact Hws].
      apply Pending_call, started_Pending; [exact Hfresh | reflexivity]. }
  fold (before_loop env registry jobId j).
  destruct (clipLoop fuel env jobId data workspace (clipsNeeded data) 0
              (before_loop env registry jobId j, []))
    as [[st clips] b] eqn:Hloop.
  destruct (loop_Pending registry jobId data workspace j fuel st clips b Hfresh Hloop)
    as [Hpend H60].
  destruct b; unfold stop; cbn [run_updates fst snd].
  - apply finishMontage_trace; assumption.
  - apply Pending_trace. exact Hpend.
Qed.

Lemma Snapshot_nonneg u : Snapshot env u -> JS.le (JS.of_Z 0) (progress u).
Proof.
  intros [? Hp ? ? | ? Hp ? ? | ? ? Hp ? ? ? | ? ? ? Hp ? ? ?];
    try (rewrite Hp; compute; discriminate);
    destruct (progress u); simpl in *; try tauto; destruct Hp as [Hlo _].
  eapply Qle_trans; [|exact Hlo]. compute. discriminate.
Qed.

(** Every job a reader can see has one of the four shapes, and the jobs
    stored one after the other are sorted by progress. *)
Lemma generateMontage_trace fuel registry req :
  let us := updates_of (generateMontage fuel env registry req) in
  StronglySorted progress_le us /\ Forall (Snapshot env) us.
Proof.
  unfold generateMontage, updates_of.
  destruct (req_videoUrls req) as [[|url urls]|]; cbn [snd run_updates];
    [split; constructor | | split; constructor].
  set (j := newJob env _).
  assert (Hfresh : Fresh j) by (repeat split).
  destruct (processMontage_trace fuel (<[uuidv4 env := j]> registry) (uuidv4 env)
              (data j) j (lookup_insert_eq _ _ _) Hfresh) as [Hs Ha].
  split.
  - constructor; [exact Hs|].
    eapply Forall_impl; [exact Ha|]. intros u Hu. apply Snapshot_nonneg. exact Hu.
  - constructor; [|exact Ha]. apply snapshot_queued; reflexivity.
Qed.

End Runs.

(** ** Progress, output and error of a job *)

(** C1, as the code has it. Over the jobs stored one after the other, from
    the creation of the job on, the progress is a number from 0 to 100 that
    never decreases (also when the job fails), and it is 100 exactly when
    the status is completed. It need not be an integer. *)
Theorem progress_of_updates (fuel : nat) (env : Env) (registry : gmap string Job)
  (req : Request) :
  let us := updates_of (generateMontage fuel env registry req) in
  StronglySorted progress_le us
  /\ Forall (fun u =>
       JS.within (inject_Z 0) (inject_Z 100) (progress u)
       /\ (JS.is_value (progress u) (inject_Z 100) <-> status u = completed)) us.
Proof.
  destruct (generateMontage_trace env fuel registry req) as [Hsorted Hall].
  split; [exact Hsorted|].
  eapply Forall_impl; [exact Hall|]. clear. intros u Hu.
  destruct Hu as [Hs Hp _ _ | Hs Hp _ _ | message Hs Hp _ _ _ | workspace name Hs Hp _ _ _].
  - rewrite Hp, Hs. simpl. split; [split; compute; discriminate|].
    split; [intros H; compute in H|]; discriminate.
  - rewrite Hs. destruct (progress u) as [q| | |]; simpl in *; try tauto.
    destruct Hp as [Hlo Hhi]. change (inject_Z 10) with 10%Q in Hlo.
    change (inject_Z 90) with 90%Q in Hhi.
    change (inject_Z 0) with 0%Q. change (inject_Z 100) with 100%Q.
    repeat split; try lra; try discriminate; intros H; lra.
  - rewrite Hs. destruct (progress u) as [q| | |]; simpl in *; try tauto.
    destruct Hp as [Hlo Hhi]. change (inject_Z 0) with 0%Q in *.
    change (inject_Z 90) with 90%Q in Hhi. change (inject_Z 100) with 100%Q.
    repeat split; try lra; try discriminate; intros H; lra.
  - rewrite Hp, Hs. simpl. split; [split; compute; discriminate|].
    split; reflexivity.
Qed.

(** C1, as stated, fails: with sixteen clips to fetch, the job stored after
    the second clip has progress 22.5, which is not an integer. *)
Lemma progress_not_integer :
  exists u,
    In u (updates_of (generateMontage 16 env_ok ∅
                        (request ["https://example.com/v"] 30 480 (Some "720p"))))
    /\ status u = processing
    /\ JS.is_value (progress u) (45 # 2)
    /\ JS.is_integer (progress u) = false.
Proof.
  eexists. split.
  - vm_compute. do 4 right. left. reflexivity.
  - vm_compute. repeat split.
Qed.

(** C2. In every job a reader can see, the output file is set (and is not
    the empty path) exactly when the status is completed, and the error is
    set (and is not the empty message) exactly when the status is failed. *)
Theorem output_and_error_of_updates (fuel : nat) (env : Env)
  (registry : gmap string Job) (req : Request) :
  messages_nonempty env ->
  Forall (fun u =>
       ((exists f, outputFile u = Some f /\ f <> "") <-> status u = completed)
       /\ ((exists e, error u = Some e /\ e <> "") <-> status u = failed))
    (updates_of (generateMontage fuel env registry req)).
Proof.
  intros (Hjoin & Hmk & Hwr & Hff).
  destruct (generateMontage_trace env fuel registry req) as [_ Hall].
  eapply Forall_impl; [exact Hall|]. intros u Hu.
  destruct Hu as [Hs _ He Ho | Hs _ He Ho | message Hs _ He Hm Ho
                 | workspace name Hs _ He _ Ho];
    rewrite Hs, He, Ho.
  - split; split; try discriminate; intros (? & ? & _); discriminate.
  - split; split; try discriminate; intros (? & ? & _); discriminate.
  - split; split; try discriminate; try reflexivity.
    + intros (? & ? & _); discriminate.
    + intros _. exists message. split; [reflexivity|].
      destruct Hm as [-> | [Hm | [Hm | Hm]]]; [discriminate | | |];
        intros ->; congruence.
  - split; split; try discriminate; try reflexivity.
    + intros _. eexists. split; [reflexivity | apply Hjoin].
    + intros (? & ? & _); discriminate.
Qed.

Lemma posix_join_nonempty a b : posix_join a b <> "".
Proof. destruct a; discriminate. Qed.

Lemma output_and_error_of_updates_witness :
  Forall (fun u =>
       ((exists f, outputFile u = Some f /\ f <> "") <-> status u = completed)
       /\ ((exists e, error u = Some e /\ e <> "") <-> status u = failed))
    (updates_of (generateMontage 3 env_ok ∅ (request ["https://example.com/v"] 30 95 None))).
Proof.
  apply output_and_error_of_updates.
  split; [exact posix_join_nonempty | repeat split; discriminate].
Defined.

(** ** The dependency check *)

(** C5. When ffmpeg or yt-dlp is missing, the job goes from queued straight
    to failed: after the two checks of the tools, the only jobs stored are
    the job as created, with status queued and progress 0, and then a job
    with status failed, the error that names the missing dependencies and
    progress 0. It is never in processing, and nothing but the two checks
    is asked of the outside. *)
Theorem missing_dependency_fails (fuel : nat) (env : Env)
  (registry : gmap string Job) (req : Request) (url : string) (urls : list string) :
  req_videoUrls req = Some (url :: urls) ->
  which env "ffmpeg" = false \/ which env "yt-dlp" = false ->
  exists run created stored,
    snd (generateMontage fuel env registry req) = Some run
    /\ run_updates run = [created; stored]
    /\ status created = queued
    /\ progress created = JS.of_Z 0
    /\ error created = None
    /\ status stored = failed
    /\ progress stored = JS.of_Z 0
    /\ error stored = Some "Missing dependencies: FFmpeg and yt-dlp are required"
    /\ Forall (fun u => status u <> processing) (run_updates run)
    /\ run_calls run = [CallWhich "ffmpeg"; CallWhich "yt-dlp"]
    /\ run_returned run = true.
Proof.
  intros Hurls Hmissing. unfold generateMontage. rewrite Hurls. cbv zeta.
  unfold processMontage, commandExists. rewrite lookup_insert_eq.
  assert (Hcheck : negb (which env "ffmpeg") || negb (which env "yt-dlp") = true).
  { destruct Hmissing as [-> | ->]; [reflexivity | apply orb_true_r]. }
  rewrite Hcheck. eexists. eexists. eexists. cbn [snd].
  split; [reflexivity|]. cbn.
  split; [reflexivity|]. repeat (split; [reflexivity|]).
  split; [|split; reflexivity].
  repeat constructor; discriminate.
Qed.

Lemma missing_dependency_fails_witness :
  exists run created stored,
    snd (generateMontage 5 env_no_tools ∅ (request ["https://example.com/v"] 30 95 None))
      = Some run
    /\ run_updates run = [created; stored]
    /\ status created = queued
    /\ progress created = JS.of_Z 0
    /\ error created = None
    /\ status stored = failed
    /\ progress stored = JS.of_Z 0
    /\ error stored = Some "Missing dependencies: FFmpeg and yt-dlp are required"
    /\ Forall (fun u => status u <> processing) (run_updates run)
    /\ run_calls run = [CallWhich "ffmpeg"; CallWhich "yt-dlp"]
    /\ run_returned run = true.
Proof.
  apply (missing_dependency_fails 5 env_no_tools ∅ _ "https://example.com/v" []).
  - reflexivity.
  - left. reflexivity.
Defined.

(** ** The turns of the clip loop *)

Section Loop.

Variable env : Env.
Variable jobId : string.
Variable data : MontageData.
Variable workspace : string.

Lemma clipStep_effect needed i st clips :
  let s' := clipStep env jobId data workspace needed i (st, clips) in
  calls (fst s') = (calls st ++ turn_calls env data workspace i)%list
  /\ snd s' = (clips ++ if clip_succeeds env i then [clipFile env workspace i] else [])%list.
Proof.
  unfold clipStep, turn_calls, clip_succeeds, getVideoDuration, downloadClip.
  destruct (ytdlp_get_duration env i); [destruct (ytdlp_download env i)|]; simpl;
    rewrite <- ?app_assoc, ?app_nil_r; split; reflexivity.
Qed.

Lemma clipSteps_effect needed count : forall i st clips,
  let s' := clipSteps env jobId data workspace needed i count (st, clips) in
  calls (fst s') = (calls st ++ flat_map (turn_calls env data workspace) (seq i count))%list
  /\ snd s' = (clips ++ map (clipFile env workspace)
                          (List.filter (clip_succeeds env) (seq i count)))%list.
Proof.
  induction count as [|count IH]; intros i st clips; cbn [clipSteps seq flat_map].
  - simpl. rewrite !app_nil_r. split; reflexivity.
  - pose proof (clipStep_effect needed i st clips) as [Hc Hk].
    destruct (clipStep env jobId data workspace needed i (st, clips)) as [st1 clips1].
    cbn [fst snd] in Hc, Hk.
    destruct (IH (S i) st1 clips1) as [Hc' Hk']. rewrite Hc', Hk', Hc, Hk.
    rewrite <- !app_assoc. split; [reflexivity|].
    f_equal. cbn [List.filter]. destruct (clip_succeeds env i); reflexivity.
Qed.

Lemma attempts_app cs cs' : attempts (cs ++ cs') = (attempts cs + attempts cs')%nat.
Proof. unfold attempts. rewrite List.filter_app, length_app. reflexivity. Qed.

Lemma attempts_turns i count :
  attempts (flat_map (turn_calls env data workspace) (seq i count)) = count.
Proof.
  revert i. induction count as [|count IH]; intros i; [reflexivity|].
  cbn [seq flat_map]. rewrite attempts_app, IH. unfold turn_calls, attempts.
  destruct (getVideoDuration env i); reflexivity.
Qed.

Lemma source_of_turns i count :
  Forall (fun c => forall src, source_of c = Some src -> src = first_url data)
    (flat_map (turn_calls env data workspace) (seq i count)).
Proof.
  revert i. induction count as [|count IH]; intros i; [constructor|].
  cbn [seq flat_map]. apply Forall_app. split; [|apply IH].
  unfold turn_calls. destruct (getVideoDuration env i);
    repeat constructor; simpl; congruence.
Qed.

(** With a finite count [z] and enough fuel the loop makes exactly the turns
    [i], ..., [z - 1] and is left. *)
Lemma clipLoop_enough z fuel : forall i s,
  (Z.to_nat z - i <= fuel)%nat ->
  clipLoop fuel env jobId data workspace (JS.of_Z z) i s
  = (clipSteps env jobId data workspace (JS.of_Z z) i (Z.to_nat z - i) s, true).
Proof.
  induction fuel as [|fuel IH]; intros i s Hfuel; cbn [clipLoop];
    change (JS.of_nat i) with (JS.of_Z (Z.of_nat i));
    destruct (JS.lt (JS.of_Z (Z.of_nat i)) (JS.of_Z z)) eqn:Hguard.
  - apply lt_of_Z in Hguard. lia.
  - replace (Z.to_nat z - i)%nat with O; [reflexivity|].
    destruct (Nat.eq_dec (Z.to_nat z - i) 0) as [|Hne]; [congruence|].
    assert (Z.of_nat i < z)%Z as Hlt%lt_of_Z by lia. congruence.
  - apply lt_of_Z in Hguard.
    replace (Z.to_nat z - i)%nat with (S (Z.to_nat z - S i)) by lia.
    rewrite IH by lia. reflexivity.
  - replace (Z.to_nat z - i)%nat with O; [reflexivity|].
    destruct (Nat.eq_dec (Z.to_nat z - i) 0) as [|Hne]; [congruence|].
    assert (Z.of_nat i < z)%Z as Hlt%lt_of_Z by lia. congruence.
Qed.

(** With less fuel the loop is still running when the fuel is spent. *)
Lemma clipLoop_short z fuel : forall i s,
  (fuel < Z.to_nat z - i)%nat ->
  clipLoop fuel env jobId data workspace (JS.of_Z z) i s
  = (clipSteps env jobId data workspace (JS.of_Z z) i fuel s, false).
Proof.
  induction fuel as [|fuel IH]; intros i s Hfuel; cbn [clipLoop];
    change (JS.of_nat i) with (JS.of_Z (Z.of_nat i));
    assert (Z.of_nat i < z)%Z as Hlt%lt_of_Z by lia; rewrite Hlt.
  - reflexivity.
  - rewrite IH by lia. reflexivity.
Qed.


Lemma finishMontage_calls st clips :
  calls (finishMontage env jobId data workspace st clips)
  = (calls st ++
     CallWriteFile (path_join env workspace "clip_list.txt") (clipListContent clips) ::
     match writeFileSync env with
     | Ok _ =>
         [CallCreateMontage (path_join env workspace "clip_list.txt")
            (path_join env workspace (scriptName data +:+ "_v01.mp4"))
            (targetResolution (resolution data)) (overlay_of (overlayText data))
            (fontSize_or_default data)]
     | Err _ => []
     end)%list.
Proof.
  unfold finishMontage, createMontage.
  destruct (writeFileSync env); [destruct (ffmpeg env)|]; simpl;
    rewrite <- ?app_assoc; reflexivity.
Qed.

Lemma processMontage_enters fuel registry j :
  registry !! jobId = Some j ->
  both_tools env ->
  mkdtempSync env = Ok workspace ->
  processMontage fuel env registry jobId data
  = match clipLoop fuel env jobId data workspace (clipsNeeded data) 0
            (before_loop env registry jobId j, []) with
    | (s, false) => stop false (fst s)
    | (s, true) => stop true (finishMontage env jobId data workspace (fst s) (snd s))
    end.
Proof.
  intros Hj [Hff Hyt] Hws. unfold processMontage, commandExists.
  rewrite Hj, Hff, Hyt, Hws. reflexivity.
Qed.

End Loop.

(** ** Runs that reach the loop *)

Section Reached.

Local Open Scope Q_scope.

Variable env : Env.
Variable registry : gmap string Job.
Variable jobId : string.
Variable data : MontageData.
Variable workspace : string.
Variable j : Job.

Hypothesis Hlookup : registry !! jobId = Some j.
Hypothesis Htools : both_tools env.
Hypothesis Hworkspace : mkdtempSync env = Ok workspace.

Local Abbreviation entry := (before_loop env registry jobId j).
Local Abbreviation turns := (flat_map (turn_calls env data workspace)).
Local Abbreviation opening :=
  [CallWhich "ffmpeg"; CallWhich "yt-dlp";
   CallMkdtemp (path_join env (tmpdir env) "montage-")].

(** A finite count and enough fuel: every clip is attempted, then the
    manifest is written with the clips that were kept. *)
Lemma run_finite_enough fuel z :
  clipsNeeded data = JS.of_Z z ->
  (Z.to_nat z <= fuel)%nat ->
  let r := processMontage fuel env registry jobId data in
  run_returned r = true
  /\ run_calls r
     = (opening ++ turns (seq 0 (Z.to_nat z))
        ++ closing_calls env data workspace (kept_clips env workspace (Z.to_nat z)))%list.
Proof.
  intros Hz Hfuel.
  rewrite (processMontage_enters env jobId data workspace fuel registry j Hlookup Htools Hworkspace).
  rewrite Hz, clipLoop_enough by lia. rewrite Nat.sub_0_r.
  destruct (clipSteps_effect env jobId data workspace (JS.of_Z z) (Z.to_nat z) 0 entry [])
    as [Hc Hk].
  cbn [run_returned run_calls stop fst snd]. split; [reflexivity|].
  rewrite finishMontage_calls, Hc, Hk, <- app_assoc. reflexivity.
Qed.

(** A finite count and too little fuel: the loop is still running. *)
Lemma run_finite_short fuel z :
  clipsNeeded data = JS.of_Z z ->
  (fuel < Z.to_nat z)%nat ->
  let r := processMontage fuel env registry jobId data in
  run_returned r = false /\ run_calls r = (opening ++ turns (seq 0 fuel))%list.
Proof.
  intros Hz Hfuel.
  rewrite (processMontage_enters env jobId data workspace fuel registry j Hlookup Htools Hworkspace).
  rewrite Hz, clipLoop_short by lia.
  destruct (clipSteps_effect env jobId data workspace (JS.of_Z z) fuel 0 entry []) as [Hc _].
  cbn [run_returned run_calls stop fst snd]. split; [reflexivity|].
  rewrite Hc. reflexivity.
Qed.


End Reached.

Lemma generateMontage_accepts fuel env registry req url urls :
  req_videoUrls req = Some (url :: urls) ->
  let created := newJob env (data_of req (url :: urls)) in
  let r := processMontage fuel env (<[uuidv4 env := created]> registry) (uuidv4 env)
             (data_of req (url :: urls)) in
  generateMontage fuel env registry req
  = (Response200 (uuidv4 env) queued,
     Some {| run_jobs := run_jobs r; run_updates := created :: run_updates r;
             run_calls := run_calls r; run_returned := run_returned r |}).
Proof. intros Hurls. unfold generateMontage. rewrite Hurls. reflexivity. Qed.

Lemma clipsNeeded_finite data m i :
  montageLength data = JS.Fin m -> interval data = JS.Fin i -> ~ (i == 0)%Q ->
  clipsNeeded data = JS.of_Z (Qfloor (m / i)).
Proof.
  intros Hm Hi Hne. unfold clipsNeeded. rewrite Hm, Hi. unfold JS.div.
  destruct (i ?= 0)%Q eqn:Hcmp; try reflexivity.
  apply Qeq_alt in Hcmp. contradiction.
Qed.


(** ** Failures of single clips *)

(** With a finite count and enough fuel the run returns after one attempt
    per clip, the manifest stage and the encode stage. *)
Lemma clip_loop_calls (fuel : nat) (env : Env) (registry : gmap string Job)
  (req : Request) (url : string) (urls : list string) (workspace : string) (z : Z) :
  req_videoUrls req = Some (url :: urls) ->
  both_tools env ->
  mkdtempSync env = Ok workspace ->
  clipsNeeded (data_of req (url :: urls)) = JS.of_Z z ->
  (Z.to_nat z <= fuel)%nat ->
  exists run,
    snd (generateMontage fuel env registry req) = Some run
    /\ run_returned run = true
    /\ run_calls run
       = (CallWhich "ffmpeg" :: CallWhich "yt-dlp"
          :: CallMkdtemp (path_join env (tmpdir env) "montage-")
          :: flat_map (turn_calls env (data_of req (url :: urls)) workspace)
               (seq 0 (Z.to_nat z))
          ++ closing_calls env (data_of req (url :: urls)) workspace
               (kept_clips env workspace (Z.to_nat z)))%list
    /\ attempts (run_calls run) = Z.to_nat z.
Proof.
  intros Hurls Htools Hws Hz Hfuel.
  rewrite (generateMontage_accepts fuel env registry req url urls Hurls).
  set (created := newJob env (data_of req (url :: urls))).
  pose proof (lookup_insert_eq registry (uuidv4 env) created) as Hlookup.
  destruct (run_finite_enough env _ _ _ workspace created Hlookup Htools Hws fuel z Hz Hfuel)
    as [Hret Hcalls].
  eexists. split; [reflexivity|]. cbn [run_returned run_calls run_updates].
  split; [exact Hret|]. split; [exact Hcalls|].
  rewrite Hcalls, !attempts_app, attempts_turns. unfold closing_calls, attempts.
  destruct (writeFileSync env); simpl; lia.
Qed.

(** C3. Whatever the probes and the downloads of the clips do, the loop
    attempts every clip, the manifest is then written with the files of the
    clips that succeeded (possibly none), the encoder is run on it, and the
    job completes when these two succeed. *)
Theorem clip_failures_are_skipped (fuel : nat) (env : Env)
  (registry : gmap string Job) (req : Request) (url : string) (urls : list string)
  (workspace : string) (z : Z) :
  req_videoUrls req = Some (url :: urls) ->
  both_tools env ->
  mkdtempSync env = Ok workspace ->
  clipsNeeded (data_of req (url :: urls)) = JS.of_Z z ->
  (Z.to_nat z <= fuel)%nat ->
  exists run,
    snd (generateMontage fuel env registry req) = Some run
    /\ run_returned run = true
    /\ run_calls run
       = (CallWhich "ffmpeg" :: CallWhich "yt-dlp"
          :: CallMkdtemp (path_join env (tmpdir env) "montage-")
          :: flat_map (turn_calls env (data_of req (url :: urls)) workspace)
               (seq 0 (Z.to_nat z))
          ++ closing_calls env (data_of req (url :: urls)) workspace
               (kept_clips env workspace (Z.to_nat z)))%list
    /\ attempts (run_calls run) = Z.to_nat z
    /\ (writeFileSync env = Ok tt -> ffmpeg env = Ok tt ->
        exists before last,
          run_updates run = (before ++ [last])%list /\ status last = completed).
Proof.
  intros Hurls Htools Hws Hz Hfuel.
  destruct (clip_loop_calls fuel env registry req url urls workspace z
              Hurls Htools Hws Hz Hfuel) as (run & Hrun & Hret & Hcalls & Hatt).
  exists run. split; [exact Hrun|]. split; [exact Hret|]. split; [exact Hcalls|].
  split; [exact Hatt|]. intros Hwrite Hffmpeg.
  rewrite (generateMontage_accepts fuel env registry req url urls Hurls) in Hrun.
  cbn [snd] in Hrun. injection Hrun as <-. cbn [run_updates].
  set (created := newJob env (data_of req (url :: urls))).
  pose proof (lookup_insert_eq registry (uuidv4 env) created) as Hlookup.
  rewrite (processMontage_enters env _ _ workspace fuel _ created Hlookup Htools Hws).
  rewrite Hz, clipLoop_enough by lia. cbn [stop run_updates fst snd].
  unfold finishMontage, createMontage. rewrite Hwrite, Hffmpeg.
  eexists (created :: _), _. cbn [updates jobs_set]. split; reflexivity.
Qed.

Lemma clip_failures_are_skipped_witness :
  exists run,
    snd (generateMontage 3 env_no_clip ∅ (request ["https://example.com/v"] 30 95 None))
      = Some run
    /\ run_returned run = true
    /\ In (CallWriteFile "/tmp/montage-abc123/clip_list.txt" "") (run_calls run)
    /\ attempts (run_calls run) = 3%nat
    /\ exists before last,
         run_updates run = (before ++ [last])%list /\ status last = completed.
Proof.
  destruct (clip_failures_are_skipped 3 env_no_clip ∅
              (request ["https://example.com/v"] 30 95 None)
              "https://example.com/v" [] "/tmp/montage-abc123" 3
              eq_refl (conj eq_refl eq_refl) eq_refl eq_refl (le_n 3))
    as (run & Hrun & Hret & Hcalls & Hatt & Hdone).
  exists run. split; [exact Hrun|]. split; [exact Hret|]. split.
  - rewrite Hcalls. vm_compute. do 6 right. left. reflexivity.
  - split; [exact Hatt | exact (Hdone eq_refl eq_refl)].
Defined.

(** ** Failures of the pipeline *)

(** C4. When the creation of the workspace, the writing of the manifest or
    the encoder fails, the job that was in processing is stored once more,
    with status failed, with the message of the failure as its error, and
    with the progress it had: no other field of the job changes. *)
Theorem uncaught_failure_fails (fuel : nat) (env : Env) (registry : gmap string Job)
  (req : Request) (run : Run) (message : string) :
  snd (generateMontage fuel env registry req) = Some run ->
  both_tools env ->
  run_returned run = true ->
  mkdtempSync env = Err message
  \/ (exists workspace, mkdtempSync env = Ok workspace)
     /\ (writeFileSync env = Err message
         \/ writeFileSync env = Ok tt /\ ffmpeg env = Err message) ->
  fails_with message (run_updates run).
Proof.
  intros Hrun Htools Hret Hfail.
  destruct (req_videoUrls req) as [[|url urls]|] eqn:Hurls;
    try (unfold generateMontage in Hrun; rewrite Hurls in Hrun; discriminate Hrun).
  rewrite (generateMontage_accepts fuel env registry req url urls Hurls) in Hrun.
  cbn [snd] in Hrun. injection Hrun as <-. cbn [run_updates run_returned] in *.
  set (created := newJob env (data_of req (url :: urls))) in *.
  pose proof (lookup_insert_eq registry (uuidv4 env) created) as Hlookup.
  destruct Hfail as [Hmk | [[workspace Hws] Hlater]].
  - unfold processMontage, commandExists. destruct Htools as [-> ->].
    rewrite Hlookup, Hmk. cbn.
    exists [created], (set_progress (JS.of_Z 10) (set_status processing created)).
    eexists. repeat split; reflexivity.
  - rewrite (processMontage_enters env _ _ workspace fuel _ created Hlookup Htools Hws) in *.
    destruct (clipLoop fuel env (uuidv4 env) (data_of req (url :: urls)) workspace _ 0 _)
      as [[st clips] [|]] eqn:Hloop; [|discriminate Hret].
    assert (Hfresh : Fresh created) by (repeat split).
    destruct (loop_Pending env _ _ _ workspace created fuel st clips true Hfresh Hloop)
      as [(Hstatus & _) _].
    cbn [stop run_updates fst snd]. unfold finishMontage, createMontage.
    destruct Hlater as [Hwrite | [Hwrite Hffmpeg]].
    + rewrite Hwrite. cbn [updates jobs_set catch mutate call job].
      exists (created :: updates st), (set_progress (JS.of_Z 60) (job st)),
        (set_error message (set_status failed (set_progress (JS.of_Z 60) (job st)))).
      split; [simpl; rewrite <- app_assoc; reflexivity|].
      split; [exact Hstatus|]. repeat split; reflexivity.
    + rewrite Hwrite, Hffmpeg. cbn [updates jobs_set catch mutate call job].
      exists (created :: updates st ++ [set_progress (JS.of_Z 60) (job st)])%list,
        (set_progress (JS.of_Z 70) (set_progress (JS.of_Z 60) (job st))),
        (set_error message
           (set_status failed
              (set_progress (JS.of_Z 70) (set_progress (JS.of_Z 60) (job st))))).
      split; [simpl; rewrite <- app_assoc; reflexivity|].
      split; [exact Hstatus|]. repeat split; reflexivity.
Qed.

Lemma uncaught_failure_fails_witness :
  exists run,
    snd (generateMontage 3 env_no_encode ∅ (request ["https://example.com/v"] 30 95 None))
      = Some run
    /\ fails_with "Command failed: ffmpeg -f concat" (run_updates run).
Proof.
  eexists. split; [reflexivity|].
  apply (uncaught_failure_fails 3 env_no_encode ∅
           (request ["https://example.com/v"] 30 95 None)).
  - reflexivity.
  - split; reflexivity.
  - reflexivity.
  - right. split; [eexists; reflexivity|]. right. split; reflexivity.
Defined.

(** ** The number of clips and their source *)

Lemma attempts_closing env data workspace clips :
  attempts (closing_calls env data workspace clips) = O.
Proof. unfold closing_calls. destruct (writeFileSync env); reflexivity. Qed.

Lemma source_of_closing env data workspace clips :
  Forall (fun c => forall src, source_of c = Some src -> src = first_url data)
    (closing_calls env data workspace clips).
Proof.
  unfold closing_calls. destruct (writeFileSync env);
    repeat constructor; simpl; congruence.
Qed.

Lemma clipsNeeded_integers data (m i : Z) :
  montageLength data = JS.of_Z m -> interval data = JS.of_Z i -> i <> 0%Z ->
  clipsNeeded data = JS.of_Z (Qfloor (inject_Z m / inject_Z i)).
Proof.
  intros Hm Hi Hne. apply clipsNeeded_finite; [exact Hm | exact Hi |].
  intros H. apply Hne. unfold Qeq in H. simpl in H. lia.
Qed.


(** A run that reaches the loop with the finite count [z]: it returns
    exactly when the fuel covers the turns, it has attempted one clip per
    turn made, and every clip was asked from the first url. *)
Lemma loop_turns (fuel : nat) (env : Env) (registry : gmap string Job)
  (req : Request) (url : string) (urls : list string) (workspace : string) (z : Z) :
  req_videoUrls req = Some (url :: urls) ->
  both_tools env ->
  mkdtempSync env = Ok workspace ->
  clipsNeeded (data_of req (url :: urls)) = JS.of_Z z ->
  exists run,
    snd (generateMontage fuel env registry req) = Some run
    /\ run_returned run = (Z.to_nat z <=? fuel)%nat
    /\ attempts (run_calls run) = Nat.min (Z.to_nat z) fuel
    /\ Forall (fun c => forall src, source_of c = Some src -> src = Some url)
         (run_calls run).
Proof.
  intros Hurls Htools Hws Hz.
  set (d := data_of req (url :: urls)) in *.
  set (created := newJob env d).
  pose proof (lookup_insert_eq registry (uuidv4 env) created) as Hlookup.
  rewrite (generateMontage_accepts fuel env registry req url urls Hurls).
  eexists. split; [reflexivity|]. cbn [run_returned run_calls].
  fold d. fold created. change (Some url) with (first_url d).
  assert (Hopening : Forall (fun c => forall src, source_of c = Some src -> src = first_url d)
                       [CallWhich "ffmpeg"; CallWhich "yt-dlp";
                        CallMkdtemp (path_join env (tmpdir env) "montage-")])
    by (repeat constructor; simpl; congruence).
  destruct (Nat.leb_spec (Z.to_nat z) fuel) as [Hle | Hlt].
  - destruct (run_finite_enough env _ _ d workspace created Hlookup Htools Hws
                fuel _ Hz Hle) as [Hret Hcalls].
    split; [exact Hret|]. rewrite Hcalls. split.
    + rewrite !attempts_app, attempts_turns, attempts_closing.
      change (attempts [_; _; _]) with O. lia.
    + apply Forall_app. split; [exact Hopening|].
      apply Forall_app. split; [apply source_of_turns | apply source_of_closing].
  - destruct (run_finite_short env _ _ d workspace created Hlookup Htools Hws
                fuel _ Hz Hlt) as [Hret Hcalls].
    split; [exact Hret|]. rewrite Hcalls. split.
    + rewrite attempts_app, attempts_turns. change (attempts [_; _; _]) with O. lia.
    + apply Forall_app. split; [exact Hopening | apply source_of_turns].
Qed.


(** C7, as the code has it. For an accepted job that passes the dependency
    check and gets its workspace, with a montage length and an interval
    that are integers of absolute value below [2 ^ 53] and an interval that
    is not 0, the number of clips attempted is floor(montageLength /
    interval) when that is not negative and 0 when it is, and every clip is
    asked from the first url of the request, however many urls it has. *)
Theorem clips_attempted (fuel : nat) (env : Env) (registry : gmap string Job)
  (req : Request) (url : string) (urls : list string) (workspace : string) (m i : Z) :
  req_videoUrls req = Some (url :: urls) ->
  both_tools env ->
  mkdtempSync env = Ok workspace ->
  req_montageLength req = JS.of_Z m ->
  req_interval req = JS.of_Z i ->
  (Z.abs m < 2 ^ 53)%Z -> (Z.abs i < 2 ^ 53)%Z -> i <> 0%Z ->
  (Z.to_nat (Qfloor (inject_Z m / inject_Z i)) <= fuel)%nat ->
  exists run,
    snd (generateMontage fuel env registry req) = Some run
    /\ run_returned run = true
    /\ Z.of_nat (attempts (run_calls run)) = Z.max 0 (Qfloor (inject_Z m / inject_Z i))
    /\ Forall (fun c => forall src, source_of c = Some src -> src = Some url)
         (run_calls run).
Proof.
  intros Hurls Htools Hws Hm Hi _ _ Hne Hfuel.
  pose proof (clipsNeeded_integers (data_of req (url :: urls)) m i Hm Hi Hne) as Hz.
  destruct (loop_turns fuel env registry req url urls workspace _ Hurls Htools Hws Hz)
    as (run & Hrun & Hret & Hatt & Hsrc).
  exists run. split; [exact Hrun|]. split.
  - rewrite Hret. apply Nat.leb_le. exact Hfuel.
  - split; [rewrite Hatt; lia | exact Hsrc].
Qed.

Lemma clips_attempted_witness :
  exists run,
    snd (generateMontage 3 env_ok ∅
           (request ["https://example.com/a"; "https://example.com/b"] 30 95 None))
      = Some run
    /\ run_returned run = true
    /\ Z.of_nat (attempts (run_calls run)) = 3%Z
    /\ Forall (fun c => forall src, source_of c = Some src ->
                 src = Some "https://example.com/a") (run_calls run).
Proof.
  apply (clips_attempted 3 env_ok ∅
           (request ["https://example.com/a"; "https://example.com/b"] 30 95 None)
           "https://example.com/a" ["https://example.com/b"] "/tmp/montage-abc123"
           95 30).
  - reflexivity.
  - split; reflexivity.
  - reflexivity.
  - reflexivity.
  - reflexivity.
  - reflexivity.
  - reflexivity.
  - discriminate.
  - vm_compute. lia.
Defined.

(** C7, as stated, fails. A request with a url is accepted, but when the
    tools are missing the job attempts no clip, while floor(95 / 30) is 3.
    With the tools present and a montage length of -95 for an interval of
    30, no clip is attempted, while floor(-95 / 30) is -4. With a montage
    length and an interval of 0 no clip is attempted, while the floor of the
    quotient is NaN. *)
Lemma clip_count_not_floor :
  (exists run,
     generateMontage 3 env_no_tools ∅ (request ["https://example.com/v"] 30 95 None)
       = (Response200 "job-1" queued, Some run)
     /\ run_returned run = true
     /\ attempts (run_calls run) = 0%nat
     /\ Qfloor (inject_Z 95 / inject_Z 30) = 3%Z)
  /\ (exists run,
        generateMontage 3 env_ok ∅ (request ["https://example.com/v"] 30 (-95) None)
          = (Response200 "job-1" queued, Some run)
        /\ run_returned run = true
        /\ attempts (run_calls run) = 0%nat
        /\ Qfloor (inject_Z (-95) / inject_Z 30) = (-4)%Z)
  /\ (exists run,
        generateMontage 3 env_ok ∅ (request ["https://example.com/v"] 0 0 None)
          = (Response200 "job-1" queued, Some run)
        /\ run_returned run = true
        /\ attempts (run_calls run) = 0%nat
        /\ clipsNeeded (data_of (request ["https://example.com/v"] 0 0 None)
                          ["https://example.com/v"]) = JS.NaN).
Proof.
  split; [|split]; eexists; (split; [reflexivity|]); vm_compute; repeat split.
Qed.

(** ** Termination of the clip loop *)




(** ** The start offset of a clip *)

Section StartTime.

Local Open Scope Q_scope.

Lemma of_Z_inj a b : JS.of_Z a = JS.of_Z b <-> a = b.
Proof. split; [intros H; injection H; tauto | intros ->; reflexivity]. Qed.

Lemma maxStart_of_Z (d t : Z) :
  maxStart (JS.of_Z d) (JS.of_Z t) = JS.of_Z (Z.max 0 (d - t)).
Proof.
  unfold maxStart, JS.sub, JS.add, JS.neg, JS.max, JS.of_Z, Qle_bool. simpl.
  rewrite !Z.mul_1_r. destruct (Z.leb_spec 0 (d + - t)) as [H | H].
  - unfold inject_Z, Qplus, Qopp. simpl. do 2 f_equal. lia.
  - unfold inject_Z. do 2 f_equal. lia.
Qed.

Lemma startTime_of_Z (r : Q) (M : Z) :
  startTime r (JS.of_Z M) = JS.of_Z (Qfloor (r * inject_Z M)).
Proof. reflexivity. Qed.

Lemma Qfloor_spec (x : Q) (k : Z) :
  Qfloor x = k <-> inject_Z k <= x /\ x < inject_Z (k + 1).
Proof.
  split.
  - intros <-. split; [apply Qfloor_le | apply Qlt_floor].
  - intros [Hlo Hhi].
    pose proof (Qfloor_resp_le _ _ Hlo) as H1. rewrite Qfloor_Z in H1.
    pose proof (Qfloor_le x) as H2.
    assert (H3 : inject_Z (Qfloor x) < inject_Z (k + 1)) by (eapply Qle_lt_trans; eassumption).
    rewrite <- Zlt_Qlt in H3. lia.
Qed.

(** The offset is never negative, and it is below a positive [M]. *)
Lemma startTime_bounds (r : Q) (M : Z) :
  0 <= r -> r < 1 -> (0 <= M)%Z ->
  (0 <= Qfloor (r * inject_Z M) <= M)%Z
  /\ ((0 < M)%Z -> (Qfloor (r * inject_Z M) < M)%Z).
Proof.
  intros Hr0 Hr1 HM.
  assert (HMq : 0 <= inject_Z M) by (change 0 with (inject_Z 0); rewrite <- Zle_Qle; lia).
  assert (Hlo : (0 <= Qfloor (r * inject_Z M))%Z).
  { change 0%Z with (Qfloor 0). apply Qfloor_resp_le. apply Qmult_le_0_compat; assumption. }
  assert (Hlt : (0 < M)%Z -> (Qfloor (r * inject_Z M) < M)%Z).
  { intros Hpos. rewrite Zlt_Qlt.
    eapply Qle_lt_trans; [apply Qfloor_le|].
    assert (HMp : 0 < inject_Z M) by (change 0 with (inject_Z 0); rewrite <- Zlt_Qlt; lia).
    assert (H : r * inject_Z M < 1 * inject_Z M) by (apply Qmult_lt_compat_r; assumption).
    rewrite Qmult_1_l in H. exact H. }
  split; [split; [exact Hlo|] | exact Hlt].
  destruct (Z.eq_dec M 0%Z) as [-> | Hne].
  - assert (H0 : Qfloor (r * inject_Z 0) = 0%Z); [|lia].
    apply Qfloor_spec. change (inject_Z 0) with 0. rewrite Qmult_0_r.
    split; [apply Qle_refl | reflexivity].
  - specialize (Hlt ltac:(lia)). lia.
Qed.

(** Every offset below [M] is reached by a value of [Math.random()] that
    is a multiple of [2 ^ -52]: the least one that is at least [k / M]. *)
Lemma startTime_reached (M k : Z) :
  (0 <= k < M)%Z -> (M <= 2 ^ 52)%Z ->
  let n := ((k * 2 ^ 52 + M - 1) / M)%Z in
  (0 <= n < 2 ^ 52)%Z /\ Qfloor ((n # 2 ^ 52) * inject_Z M) = k.
Proof.
  intros Hk HM n.
  assert (Hpow : Z.pos (2 ^ 52) = (2 ^ 52)%Z) by reflexivity.
  set (P := (2 ^ 52)%Z) in *.
  assert (HP : (0 < P)%Z) by (subst P; reflexivity).
  pose proof (Z.div_mod (k * P + M - 1) M ltac:(lia)) as Hdiv.
  pose proof (Z.mod_pos_bound (k * P + M - 1) M ltac:(lia)) as Hmod.
  fold n in Hdiv.
  assert (Hlo : (k * P <= n * M)%Z) by lia.
  assert (Hhi : (n * M < (k + 1) * P)%Z) by nia.
  split; [split; nia|].
  unfold Qmult, Qfloor, inject_Z. cbn [Qnum Qden]. rewrite Pos.mul_1_r, Hpow.
  symmetry. apply (Z.div_unique (n * M) P k (n * M - k * P)); lia.
Qed.

End StartTime.

(** C6, as the code has it. For a source of [d] seconds and an interval of
    [t] seconds, whole numbers below [2 ^ 51], maxStart is max(0, d - t), and
    the start offset is floor(random * maxStart) with random in [0, 1): an
    integer from 0 to maxStart that is below maxStart when maxStart is
    positive. Every integer of [0, maxStart) is the offset for some value of
    random in [0, 1) that is a multiple of [2 ^ -52]. *)
Theorem startTime_range (d t : Z) (r : Q) :
  (0 <= r)%Q -> (r < 1)%Q ->
  (0 <= d < 2 ^ 51)%Z -> (0 <= t < 2 ^ 51)%Z ->
  let M := Z.max 0 (d - t) in
  maxStart (JS.of_Z d) (JS.of_Z t) = JS.of_Z M
  /\ (exists k,
        startTime r (maxStart (JS.of_Z d) (JS.of_Z t)) = JS.of_Z k
        /\ (0 <= k <= M)%Z /\ ((0 < M)%Z -> (k < M)%Z))
  /\ (forall k : Z,
        (0 <= k < M)%Z ->
        exists n : Z,
          (0 <= n < 2 ^ 52)%Z
          /\ startTime (n # 2 ^ 52) (maxStart (JS.of_Z d) (JS.of_Z t)) = JS.of_Z k).
Proof.
  intros Hr0 Hr1 Hd Ht M. rewrite maxStart_of_Z. fold M.
  split; [reflexivity|]. split.
  - exists (Qfloor (r * inject_Z M)). split; [apply startTime_of_Z|].
    apply startTime_bounds; [exact Hr0 | exact Hr1 | subst M; lia].
  - intros k Hk.
    destruct (startTime_reached M k Hk) as [Hn Hfloor].
    { subst M. change (2 ^ 52)%Z with (2 * 2 ^ 51)%Z. lia. }
    eexists. split; [exact Hn|]. rewrite startTime_of_Z, Hfloor. reflexivity.
Qed.

Lemma startTime_range_witness :
  maxStart (JS.of_Z 40) (JS.of_Z 30) = JS.of_Z 10
  /\ (exists k,
        startTime (1 # 2) (maxStart (JS.of_Z 40) (JS.of_Z 30)) = JS.of_Z k
        /\ (0 <= k <= 10)%Z /\ ((0 < 10)%Z -> (k < 10)%Z))
  /\ (forall k : Z,
        (0 <= k < 10)%Z ->
        exists n : Z,
          (0 <= n < 2 ^ 52)%Z
          /\ startTime (n # 2 ^ 52) (maxStart (JS.of_Z 40) (JS.of_Z 30)) = JS.of_Z k).
Proof.
  apply (startTime_range 40 30 (1 # 2)).
  - compute. discriminate.
  - reflexivity.
  - split; [discriminate | reflexivity].
  - split; [discriminate | reflexivity].
Defined.

(** C6, as stated, fails: for a source of 40 seconds and an interval of 30,
    maxStart is 10 and no value of [Math.random()] gives the offset 10. *)
Lemma startTime_never_maxStart :
  maxStart (JS.of_Z 40) (JS.of_Z 30) = JS.of_Z 10
  /\ ~ exists r : Q,
         (0 <= r)%Q /\ (r < 1)%Q
         /\ startTime r (maxStart (JS.of_Z 40) (JS.of_Z 30)) = JS.of_Z 10.
Proof.
  split; [reflexivity|]. intros (r & Hr0 & Hr1 & Hstart).
  change (maxStart (JS.of_Z 40) (JS.of_Z 30)) with (JS.of_Z 10) in Hstart.
  rewrite startTime_of_Z, of_Z_inj in Hstart.
  destruct (startTime_bounds r 10 Hr0 Hr1 ltac:(lia)) as [_ Hlt].
  specialize (Hlt ltac:(lia)). lia.
Qed.

(** ** The registry across a run *)

Section Registry.

Variable env : Env.
Variable before : gmap string Job.
Variable jobId : string.

Lemma Stored_jobs_set st :
  Stored before jobId st -> Stored before jobId (jobs_set jobId st).
Proof.
  unfold Stored. cbn [jobs updates jobs_set]. intros ->. rewrite last_snoc.
  destruct (last (updates st)); [apply insert_insert_eq | reflexivity].
Qed.

Lemma Stored_catch st message :
  Stored before jobId st -> Stored before jobId (catch jobId message st).
Proof. intros H. unfold catch. apply Stored_jobs_set. exact H. Qed.

Lemma clipStep_Stored data workspace needed i st clips :
  Stored before jobId st ->
  Stored before jobId (fst (clipStep env jobId data workspace needed i (st, clips))).
Proof.
  intros H. unfold clipStep.
  destruct (getVideoDuration env i); [|exact H].
  destruct (downloadClip env i _); [|exact H].
  cbn [fst]. apply Stored_jobs_set. exact H.
Qed.

Lemma clipSteps_Stored data workspace needed count : forall i s,
  Stored before jobId (fst s) ->
  Stored before jobId (fst (clipSteps env jobId data workspace needed i count s)).
Proof.
  induction count as [|count IH]; intros i [st clips] H; cbn [clipSteps]; [exact H|].
  apply IH. apply clipStep_Stored. exact H.
Qed.

Lemma finishMontage_Stored data workspace st clips :
  Stored before jobId st ->
  Stored before jobId (finishMontage env jobId data workspace st clips).
Proof.
  intros H. unfold finishMontage, createMontage.
  pose proof (Stored_jobs_set (mutate (set_progress (JS.of_Z 60)) st) H) as H60.
  destruct (writeFileSync env); [|apply Stored_catch; exact H60].
  match goal with |- context [jobs_set jobId (mutate (set_progress (JS.of_Z 70)) ?s)] =>
    pose proof (Stored_jobs_set (mutate (set_progress (JS.of_Z 70)) s) H60) as H70 end.
  destruct (ffmpeg env); [|apply Stored_catch; exact H70].
  apply Stored_jobs_set.
  match goal with
  | |- Stored _ _ (mutate _ (mutate _ (mutate _ (mutate _ (mutate _ (jobs_set jobId ?s)))))) =>
      change (Stored before jobId (jobs_set jobId s))
  end.
  apply Stored_jobs_set. exact H70.
Qed.

(** After a run the registry is the one before it, except that the job id
    holds the job stored last. *)
Lemma processMontage_registry fuel data :
  let r := processMontage fuel env before jobId data in
  run_jobs r = match last (run_updates r) with
               | Some u => <[jobId := u]> before
               | None => before
               end.
Proof.
  unfold processMontage, commandExists.
  destruct (before !! jobId) as [j|]; [|reflexivity].
  set (st0 := {| job := j; jobs := before; updates := []; calls := [] |}).
  assert (H0 : Stored before jobId st0) by reflexivity.
  destruct (negb (which env "ffmpeg") || negb (which env "yt-dlp")).
  { unfold stop; cbn [run_jobs run_updates].
    match goal with |- jobs ?s = _ => change (Stored before jobId s) end.
    apply Stored_jobs_set. exact H0. }
  cbv zeta.
  pose proof (Stored_jobs_set (mutate (set_progress (JS.of_Z 10))
                                 (mutate (set_status processing) st0)) H0) as H10.
  destruct (mkdtempSync env) as [workspace|message].
  2:{ unfold stop; cbn [run_jobs run_updates].
      match goal with |- jobs ?s = _ => change (Stored before jobId s) end.
      apply Stored_catch. exact H10. }
  match goal with |- context [clipLoop fuel env jobId data workspace ?n 0 (?st, [])] =>
    assert (H20 : Stored before jobId st) by (apply Stored_jobs_set; exact H10);
    destruct (clipLoop_steps env jobId data workspace fuel 0 (st, []))
      as (count & Heq & _ & _);
    pose proof (clipSteps_Stored data workspace n count 0 (st, []) H20) as Hloop;
    destruct (clipLoop fuel env jobId data workspace n 0 (st, [])) as [[st' clips'] b]
  end.
  cbn [fst] in Heq. rewrite <- Heq in Hloop.
  destruct b; unfold stop; cbn [run_jobs run_updates fst snd];
    match goal with |- jobs ?s = _ => change (Stored before jobId s) end.
  - apply finishMontage_Stored. exact Hloop.
  - exact Hloop.
Qed.

End Registry.

(** X1. A run of the pipeline leaves every other job of the registry as it
    was, and for a job id that is not in the registry it does nothing at
    all: no update, no call, the registry unchanged. *)
Theorem processMontage_frame (fuel : nat) (env : Env) (registry : gmap string Job)
  (jobId other : string) (data : MontageData) :
  other <> jobId ->
  run_jobs (processMontage fuel env registry jobId data) !! other = registry !! other
  /\ (registry !! jobId = None ->
      processMontage fuel env registry jobId data
      = {| run_jobs := registry; run_updates := []; run_calls := [];
           run_returned := true |}).
Proof.
  intros Hne. split.
  - rewrite processMontage_registry.
    destruct (last (run_updates (processMontage fuel env registry jobId data)));
      [apply lookup_insert_ne; congruence | reflexivity].
  - intros Hnone. unfold processMontage. rewrite Hnone. reflexivity.
Qed.

Lemma processMontage_frame_witness :
  run_jobs (processMontage 3 env_ok (<["job-0" := newJob env_ok (data_of (request ["u"] 30 95 None) ["u"])]> ∅)
              "job-1" (data_of (request ["u"] 30 95 None) ["u"])) !! "job-0"
  = Some (newJob env_ok (data_of (request ["u"] 30 95 None) ["u"])).
Proof.
  destruct (processMontage_frame 3 env_ok
              (<["job-0" := newJob env_ok (data_of (request ["u"] 30 95 None) ["u"])]> ∅)
              "job-1" "job-0" (data_of (request ["u"] 30 95 None) ["u"])) as [H _].
  - discriminate.
  - rewrite H. apply lookup_insert_eq.
Defined.

(** The registry after an accepted request. *)
Lemma job_registry_after_request (fuel : nat) (env : Env) (registry : gmap string Job)
  (req : Request) (url : string) (urls : list string) :
  req_videoUrls req = Some (url :: urls) ->
  exists run earlier latest,
    generateMontage fuel env registry req = (Response200 (uuidv4 env) queued, Some run)
    /\ run_updates run = (earlier ++ [latest])%list
    /\ run_jobs run = <[uuidv4 env := latest]> registry.
Proof.
  intros Hurls. rewrite (generateMontage_accepts fuel env registry req url urls Hurls).
  set (created := newJob env (data_of req (url :: urls))).
  set (r := processMontage fuel env (<[uuidv4 env := created]> registry) (uuidv4 env)
              (data_of req (url :: urls))).
  pose proof (processMontage_registry env (<[uuidv4 env := created]> registry)
                (uuidv4 env) fuel (data_of req (url :: urls))) as H.
  fold r in H. cbv zeta in H.
  destruct (last (run_updates r)) as [u|] eqn:Hlast.
  - apply last_Some in Hlast as [l Hl]. eexists. exists (created :: l), u.
    split; [reflexivity|]. cbn [run_updates run_jobs].
    rewrite Hl, H. split; [reflexivity | apply insert_insert_eq].
  - apply last_None in Hlast. eexists. exists [], created.
    split; [reflexivity|]. cbn [run_updates run_jobs]. rewrite Hlast, H.
    split; reflexivity.
Qed.

(** X2. After an accepted request the registry holds, under the job id of
    the response, the job stored last; the status route answers 200 with
    that job; the request adds this one id to the registry and changes the
    answer of the status route for no other id. *)
Theorem job_status_after_request (fuel : nat) (env : Env) (registry : gmap string Job)
  (req : Request) (url : string) (urls : list string) :
  req_videoUrls req = Some (url :: urls) ->
  exists run earlier latest,
    generateMontage fuel env registry req = (Response200 (uuidv4 env) queued, Some run)
    /\ run_updates run = (earlier ++ [latest])%list
    /\ run_jobs run = <[uuidv4 env := latest]> registry
    /\ getJobStatus (run_jobs run) (uuidv4 env) = Status200 latest
    /\ dom (run_jobs run) = {[uuidv4 env]} ∪ dom registry
    /\ forall other, other <> uuidv4 env ->
         getJobStatus (run_jobs run) other = getJobStatus registry other.
Proof.
  intros Hurls.
  destruct (job_registry_after_request fuel env registry req url urls Hurls)
    as (run & earlier & latest & Hgen & Hup & Hjobs).
  exists run, earlier, latest. split; [exact Hgen|].
  split; [exact Hup|]. split; [exact Hjobs|]. rewrite Hjobs. unfold getJobStatus.
  split; [rewrite lookup_insert_eq; reflexivity|].
  split; [apply dom_insert_L|].
  intros other Hother. rewrite lookup_insert_ne by congruence. reflexivity.
Qed.

Lemma job_status_after_request_witness :
  exists run earlier latest,
    generateMontage 3 env_no_encode ∅ (request ["https://example.com/v"] 30 95 None)
      = (Response200 "job-1" queued, Some run)
    /\ run_updates run = (earlier ++ [latest])%list
    /\ getJobStatus (run_jobs run) "job-1" = Status200 latest.
Proof.
  destruct (job_status_after_request 3 env_no_encode ∅
              (request ["https://example.com/v"] 30 95 None)
              "https://example.com/v" [] eq_refl)
    as (run & earlier & latest & H1 & H2 & _ & H4 & _).
  exists run, earlier, latest. split; [exact H1 | split; [exact H2 | exact H4]].
Defined.

(** ** What the pipeline never changes *)

Section Preserved.

Variable P : Job -> Prop.
Hypothesis P_status : forall s j, P j -> P (set_status s j).
Hypothesis P_progress : forall p j, P j -> P (set_progress p j).
Hypothesis P_error : forall e j, P j -> P (set_error e j).
Hypothesis P_completedAt : forall t j, P j -> P (set_completedAt t j).
Hypothesis P_downloadUrl : forall u j, P j -> P (set_downloadUrl u j).
Hypothesis P_outputFile : forall f j, P j -> P (set_outputFile f j).

Variable env : Env.
Variable jobId : string.

Lemma Kept_updates st : Kept P st -> Forall P (updates st).
Proof. intros [_ H]. exact H. Qed.

Lemma Kept_call c st : Kept P st -> Kept P (call c st).
Proof. exact (fun H => H). Qed.

Lemma Kept_mutate f st : (forall j, P j -> P (f j)) -> Kept P st -> Kept P (mutate f st).
Proof. intros Hf [Hj Hu]. split; [apply Hf, Hj | exact Hu]. Qed.

Lemma Kept_jobs_set st : Kept P st -> Kept P (jobs_set jobId st).
Proof.
  intros [Hj Hu]. split; [exact Hj|]. cbn [updates jobs_set].
  apply Forall_app. split; [exact Hu | apply Forall_singleton; exact Hj].
Qed.

Lemma Kept_emit st p : Kept P st -> Kept P (jobs_set jobId (mutate (set_progress p) st)).
Proof. intros H. apply Kept_jobs_set, Kept_mutate; [apply P_progress | exact H]. Qed.

Lemma Kept_catch st message : Kept P st -> Kept P (catch jobId message st).
Proof.
  intros H. unfold catch.
  apply Kept_jobs_set, Kept_mutate; [apply P_error|].
  apply Kept_mutate; [apply P_status | exact H].
Qed.

Lemma clipSteps_Kept data workspace needed count : forall i s,
  Kept P (fst s) -> Kept P (fst (clipSteps env jobId data workspace needed i count s)).
Proof.
  induction count as [|count IH]; intros i [st clips] H; cbn [clipSteps]; [exact H|].
  apply IH. unfold clipStep.
  destruct (getVideoDuration env i); [|exact H].
  destruct (downloadClip env i _); [|exact H].
  cbn [fst]. apply Kept_emit, Kept_call, Kept_call. exact H.
Qed.

Lemma finishMontage_Kept data workspace st clips :
  Kept P st -> Kept P (finishMontage env jobId data workspace st clips).
Proof.
  intros H. unfold finishMontage, createMontage.
  pose proof (Kept_emit st (JS.of_Z 60) H) as H60.
  destruct (writeFileSync env); [|apply Kept_catch, Kept_call; exact H60].
  destruct (ffmpeg env); [|apply Kept_catch, Kept_call, Kept_emit, Kept_call; exact H60].
  apply Kept_jobs_set.
  apply Kept_mutate; [apply P_outputFile|]. apply Kept_mutate; [apply P_downloadUrl|].
  apply Kept_mutate; [apply P_completedAt|]. apply Kept_mutate; [apply P_progress|].
  apply Kept_mutate; [apply P_status|].
  apply Kept_emit, Kept_call, Kept_emit, Kept_call. exact H60.
Qed.

(** A property of the job that no field update breaks holds of every job
    the run stores. *)
Lemma processMontage_preserves fuel registry data j :
  registry !! jobId = Some j -> P j ->
  Forall P (run_updates (processMontage fuel env registry jobId data)).
Proof.
  intros Hj HP. unfold processMontage, commandExists. rewrite Hj.
  set (st0 := {| job := j; jobs := registry; updates := []; calls := [] |}).
  assert (H0 : Kept P st0) by (split; [exact HP | constructor]).
  destruct (negb (which env "ffmpeg") || negb (which env "yt-dlp")).
  { unfold stop; cbn [run_updates]. apply Kept_updates.
    apply Kept_jobs_set, Kept_mutate; [apply P_error|].
    apply Kept_mutate; [apply P_status | exact H0]. }
  cbv zeta.
  assert (H10 : Kept P (jobs_set jobId (mutate (set_progress (JS.of_Z 10))
                                          (mutate (set_status processing) st0)))).
  { apply Kept_emit, Kept_mutate; [apply P_status | exact H0]. }
  destruct (mkdtempSync env) as [workspace|message].
  2:{ unfold stop; cbn [run_updates].
      apply Kept_updates, Kept_catch, Kept_call. exact H10. }
  match goal with |- context [clipLoop fuel env jobId data workspace ?n 0 (?st, [])] =>
    assert (H20 : Kept P st) by (apply Kept_emit, Kept_call; exact H10);
    destruct (clipLoop_steps env jobId data workspace fuel 0 (st, []))
      as (count & Heq & _ & _);
    pose proof (clipSteps_Kept data workspace n count 0 (st, []) H20) as Hloop;
    destruct (clipLoop fuel env jobId data workspace n 0 (st, [])) as [[st' clips'] b]
  end.
  cbn [fst] in Heq. rewrite <- Heq in Hloop.
  destruct b; unfold stop; cbn [run_updates fst snd]; apply Kept_updates.
  - apply finishMontage_Kept. exact Hloop.
  - exact Hloop.
Qed.

End Preserved.

Lemma identity_of_stored (fuel : nat) (env : Env) (registry : gmap string Job)
  (req : Request) (url : string) (urls : list string) :
  req_videoUrls req = Some (url :: urls) ->
  Forall (fun u =>
       id u = uuidv4 env /\ type u = "montage" /\ createdAt u = createdTime env
       /\ data u = data_of req (url :: urls))
    (updates_of (generateMontage fuel env registry req)).
Proof.
  intros Hurls. rewrite (generateMontage_accepts fuel env registry req url urls Hurls).
  unfold updates_of. cbn [snd run_updates].
  constructor; [repeat split|].
  apply (processMontage_preserves _) with (j := newJob env (data_of req (url :: urls)));
    try (intros ? ? H; exact H).
  - apply lookup_insert_eq.
  - repeat split.
Qed.

(** X3. The pipeline never changes the id, the type, the creation time or
    the request data of a job: in every job stored for an accepted request
    they are the ones the handler set. *)
Theorem identity_of_updates (fuel : nat) (env : Env) (registry : gmap string Job)
  (req : Request) (url : string) (urls : list string) :
  req_videoUrls req = Some (url :: urls) ->
  Forall (fun u =>
       id u = uuidv4 env /\ type u = "montage" /\ createdAt u = createdTime env
       /\ data u = data_of req (url :: urls))
    (updates_of (generateMontage fuel env registry req)).
Proof. exact (identity_of_stored fuel env registry req url urls). Qed.

Lemma identity_of_updates_witness :
  Forall (fun u =>
       id u = "job-1" /\ type u = "montage" /\ createdAt u = 1000%Z
       /\ data u = data_of (request ["https://example.com/v"] 30 95 None)
                     ["https://example.com/v"])
    (updates_of (generateMontage 3 env_ok ∅ (request ["https://example.com/v"] 30 95 None))).
Proof.
  apply (identity_of_updates 3 env_ok ∅ (request ["https://example.com/v"] 30 95 None)
           "https://example.com/v" []).
  reflexivity.
Defined.

(** ** The download route *)

(** X4. After an accepted request, whatever the fuel, the download route
    serves a file only when the job stored last is completed: otherwise it
    answers 404 "File not found". For a completed job it serves the output
    file of the job under the name made of the file name of the request (or
    "montage") and "_v01.mp4" when that file is on disk, and answers 404
    "File not found on disk" when it is not. *)
Theorem download_after_request (fuel : nat) (env : Env) (registry : gmap string Job)
  (req : Request) (url : string) (urls : list string) (existsSync : string -> bool) :
  req_videoUrls req = Some (url :: urls) ->
  (forall a b, path_join env a b <> "") ->
  exists run earlier latest,
    snd (generateMontage fuel env registry req) = Some run
    /\ run_updates run = (earlier ++ [latest])%list
    /\ (status latest <> completed ->
        getDownload existsSync (run_jobs run) (uuidv4 env) = Download404 "File not found")
    /\ (status latest = completed ->
        exists file,
          outputFile latest = Some file
          /\ getDownload existsSync (run_jobs run) (uuidv4 env)
             = if existsSync file
               then Download file (scriptName (data_of req (url :: urls)) +:+ "_v01.mp4")
               else Download404 "File not found on disk").
Proof.
  intros Hurls Hjoin.
  destruct (job_registry_after_request fuel env registry req url urls Hurls)
    as (run & earlier & latest & Hgen & Hup & Hjobs).
  pose proof (generateMontage_trace env fuel registry req) as [_ Hall].
  pose proof (identity_of_stored fuel env registry req url urls Hurls) as Hid.
  unfold updates_of in Hall, Hid. rewrite Hgen in Hall, Hid. cbn [snd] in Hall, Hid.
  rewrite Hup in Hall, Hid.
  apply Forall_app in Hall as [_ Hlatest%List.Forall_inv].
  apply Forall_app in Hid as [_ (_ & _ & _ & Hdata)%List.Forall_inv].
  exists run, earlier, latest. rewrite Hgen. split; [reflexivity|]. split; [exact Hup|].
  unfold getDownload. rewrite Hjobs, lookup_insert_eq, Hdata.
  destruct Hlatest as [Hs _ _ Ho | Hs _ _ Ho | message Hs _ _ _ Ho
                      | workspace name Hs _ _ _ Ho]; rewrite Hs, Ho; split;
    try reflexivity; try congruence; try discriminate.
  intros _. eexists. split; [reflexivity|].
  destruct (String.eqb_spec (path_join env workspace name) "") as [Hempty|_];
    [destruct (Hjoin _ _ Hempty) | reflexivity].
Qed.

Lemma download_after_request_witness :
  exists run earlier latest,
    snd (generateMontage 3 env_ok ∅ (request ["https://example.com/v"] 30 95 None))
      = Some run
    /\ run_updates run = (earlier ++ [latest])%list
    /\ (status latest <> completed ->
        getDownload (fun _ => true) (run_jobs run) "job-1" = Download404 "File not found")
    /\ (status latest = completed ->
        exists file,
          outputFile latest = Some file
          /\ getDownload (fun _ => true) (run_jobs run) "job-1"
             = Download file "montage_v01.mp4").
Proof.
  apply (download_after_request 3 env_ok ∅ (request ["https://example.com/v"] 30 95 None)
           "https://example.com/v" [] (fun _ => true) eq_refl posix_join_nonempty).
Defined.

(** ** A run that succeeds *)

(** X5. When the tools are present, the workspace is created, the clip
    count is finite and the manifest and the encoder succeed, the job stored
    last is completed with progress 100, no error, the completion time, the
    output file [<name>_v01.mp4] in the workspace and the download url
    [/api/download/<id>] of its own id; the status route returns this job. *)
Theorem completed_job (fuel : nat) (env : Env) (registry : gmap string Job)
  (req : Request) (url : string) (urls : list string) (workspace : string) (z : Z) :
  req_videoUrls req = Some (url :: urls) ->
  both_tools env ->
  mkdtempSync env = Ok workspace ->
  clipsNeeded (data_of req (url :: urls)) = JS.of_Z z ->
  (Z.to_nat z <= fuel)%nat ->
  writeFileSync env = Ok tt ->
  ffmpeg env = Ok tt ->
  exists run latest,
    snd (generateMontage fuel env registry req) = Some run
    /\ getJobStatus (run_jobs run) (uuidv4 env) = Status200 latest
    /\ last (run_updates run) = Some latest
    /\ status latest = completed
    /\ progress latest = JS.of_Z 100
    /\ error latest = None
    /\ completedAt latest = Some (completedTime env)
    /\ outputFile latest
       = Some (path_join env workspace
                 (scriptName (data_of req (url :: urls)) +:+ "_v01.mp4"))
    /\ downloadUrl latest = Some ("/api/download/" +:+ uuidv4 env).
Proof.
  intros Hurls Htools Hws Hz Hfuel Hwrite Hffmpeg.
  rewrite (generateMontage_accepts fuel env registry req url urls Hurls).
  set (data := data_of req (url :: urls)) in *.
  set (created := newJob env data).
  pose proof (lookup_insert_eq registry (uuidv4 env) created) as Hlookup.
  cbv zeta.
  rewrite (processMontage_enters env _ _ workspace fuel _ created Hlookup Htools Hws).
  rewrite Hz, clipLoop_enough by lia.
  destruct (clipSteps env (uuidv4 env) data workspace (JS.of_Z z) 0 (Z.to_nat z - 0) _)
    as [st clips] eqn:Hsteps.
  assert (Herr : error (job st) = None).
  { assert (Hfresh : Fresh created) by (repeat split).
    assert (Hloop : clipLoop (Z.to_nat z) env (uuidv4 env) data workspace (clipsNeeded data) 0
                      (before_loop env (<[uuidv4 env := created]> registry)
                         (uuidv4 env) created, [])
                    = (st, clips, true)).
    { rewrite Hz, clipLoop_enough by lia. rewrite Hsteps. reflexivity. }
    destruct (loop_Pending env _ _ _ workspace created _ st clips true Hfresh Hloop)
      as [(_ & He & _) _]. exact He. }
  cbn [stop fst snd]. unfold finishMontage, createMontage. rewrite Hwrite, Hffmpeg.
  eexists. eexists. split; [reflexivity|].
  unfold stop. cbn [run_jobs run_updates jobs updates jobs_set].
  split; [unfold getJobStatus; rewrite lookup_insert_eq; reflexivity|].
  split.
  { change (?x :: ?l ++ [?y])%list with ((x :: l) ++ [y])%list. apply last_snoc. }
  cbn. repeat split. exact Herr.
Qed.

Lemma completed_job_witness :
  exists run latest,
    snd (generateMontage 3 env_ok ∅ (request ["https://example.com/v"] 30 95 None))
      = Some run
    /\ getJobStatus (run_jobs run) "job-1" = Status200 latest
    /\ status latest = completed
    /\ outputFile latest = Some "/tmp/montage-abc123/montage_v01.mp4"
    /\ downloadUrl latest = Some "/api/download/job-1".
Proof.
  destruct (completed_job 3 env_ok ∅ (request ["https://example.com/v"] 30 95 None)
              "https://example.com/v" [] "/tmp/montage-abc123" 3
              eq_refl (conj eq_refl eq_refl) eq_refl eq_refl (le_n 3) eq_refl eq_refl)
    as (run & latest & H1 & H2 & _ & H4 & _ & _ & _ & H8 & H9).
  exists run, latest. repeat split; assumption.
Defined.

(** ** The progress a run stores *)

Section Progress.

Variable env : Env.
Variable jobId : string.
Variable data : MontageData.
Variable workspace : string.

Lemma clipStep_progress needed i st clips :
  map progress (updates (fst (clipStep env jobId data workspace needed i (st, clips))))
  = (map progress (updates st)
     ++ if clip_succeeds env i then [clipProgress i needed] else [])%list.
Proof.
  unfold clipStep, clip_succeeds, getVideoDuration, downloadClip.
  destruct (ytdlp_get_duration env i); [destruct (ytdlp_download env i)|];
    cbn [fst updates jobs_set mutate call job]; rewrite ?map_app, ?app_nil_r; reflexivity.
Qed.

Lemma clipSteps_progress needed count : forall i st clips,
  map progress (updates (fst (clipSteps env jobId data workspace needed i count (st, clips))))
  = (map progress (updates st)
     ++ map (fun k => clipProgress k needed)
          (List.filter (clip_succeeds env) (seq i count)))%list.
Proof.
  induction count as [|count IH]; intros i st clips; cbn [clipSteps seq List.filter].
  - cbn [fst map]. rewrite app_nil_r. reflexivity.
  - pose proof (clipStep_progress needed i st clips) as Hstep.
    destruct (clipStep env jobId data workspace needed i (st, clips)) as [st1 clips1].
    cbn [fst] in Hstep. rewrite IH, Hstep, <- app_assoc.
    destruct (clip_succeeds env i); reflexivity.
Qed.

Lemma finishMontage_progress st clips :
  map progress (updates (finishMontage env jobId data workspace st clips))
  = (map progress (updates st) ++ closing_progress env)%list.
Proof.
  unfold finishMontage, createMontage, closing_progress.
  destruct (writeFileSync env); [destruct (ffmpeg env)|];
    cbn [updates jobs_set catch mutate call job progress set_progress set_status
           set_error set_completedAt set_downloadUrl set_outputFile];
    rewrite ?map_app, <- ?app_assoc; reflexivity.
Qed.

End Progress.

Lemma clipProgress_within_count i z :
  (i < Z.to_nat z)%nat ->
  JS.within (inject_Z 20) (inject_Z 60) (clipProgress i (JS.of_Z z)).
Proof.
  intros Hi. replace (JS.of_Z z) with (JS.floor (JS.of_Z z))
    by (cbn [JS.floor JS.of_Z]; rewrite Qfloor_Z; reflexivity).
  apply clipProgress_within. cbn [JS.floor JS.of_Z]. rewrite Qfloor_Z.
  apply lt_of_Z. lia.
Qed.

Lemma Forall_of_map {A B C} (f : A -> C) (g : B -> C) (P : C -> Prop) (l : list A) :
  forall l' : list B,
    map f l = map g l' -> Forall (fun y => P (g y)) l' -> Forall (fun x => P (f x)) l.
Proof.
  induction l as [|x l IH]; intros [|y l'] Hmap Hall; try discriminate Hmap.
  - constructor.
  - injection Hmap as Hx Hl. constructor.
    + rewrite Hx. exact (List.Forall_inv Hall).
    + apply (IH l' Hl). exact (List.Forall_inv_tail Hall).
Qed.

(** X6. In a run that reaches the loop with a finite clip count and enough
    fuel, the jobs stored are: three jobs, with progress 0, 10 and 20; then
    one job for each turn whose probe and download both succeeded, and none
    for a turn that failed, each with a progress from 20 to 60; then the
    jobs of the manifest and encode stages, with progress 60, 70, 90 and
    100 when both succeed, 60 and 60 when the manifest cannot be written,
    and 60, 70 and 70 when the encoder fails. *)
Theorem progress_sequence (fuel : nat) (env : Env) (registry : gmap string Job)
  (req : Request) (url : string) (urls : list string) (workspace : string) (z : Z) :
  req_videoUrls req = Some (url :: urls) ->
  both_tools env ->
  mkdtempSync env = Ok workspace ->
  clipsNeeded (data_of req (url :: urls)) = JS.of_Z z ->
  (Z.to_nat z <= fuel)%nat ->
  exists opening during closing,
    updates_of (generateMontage fuel env registry req)
    = (opening ++ during ++ closing)%list
    /\ map progress opening = [JS.of_Z 0; JS.of_Z 10; JS.of_Z 20]
    /\ length during = length (List.filter (clip_succeeds env) (seq 0 (Z.to_nat z)))
    /\ Forall (fun u => JS.within (inject_Z 20) (inject_Z 60) (progress u)) during
    /\ map progress closing
       = match writeFileSync env, ffmpeg env with
         | Err _, _ => [JS.of_Z 60; JS.of_Z 60]
         | Ok _, Err _ => [JS.of_Z 60; JS.of_Z 70; JS.of_Z 70]
         | Ok _, Ok _ => [JS.of_Z 60; JS.of_Z 70; JS.of_Z 90; JS.of_Z 100]
         end.
Proof.
  intros Hurls Htools Hws Hz Hfuel.
  assert (Hmap : map progress (updates_of (generateMontage fuel env registry req))
                 = ([JS.of_Z 0; JS.of_Z 10; JS.of_Z 20]
                    ++ map (fun i => clipProgress i (JS.of_Z z))
                         (List.filter (clip_succeeds env) (seq 0 (Z.to_nat z)))
                    ++ closing_progress env)%list).
  { rewrite (generateMontage_accepts fuel env registry req url urls Hurls).
    unfold updates_of. cbn [snd run_updates].
    set (created := newJob env (data_of req (url :: urls))).
    pose proof (lookup_insert_eq registry (uuidv4 env) created) as Hlookup.
    rewrite (processMontage_enters env _ _ workspace fuel _ created Hlookup Htools Hws).
    rewrite Hz, clipLoop_enough by lia. rewrite Nat.sub_0_r.
    unfold stop. cbn [run_updates].
    rewrite map_cons, finishMontage_progress, clipSteps_progress.
    rewrite <- app_assoc. reflexivity. }
  apply map_eq_app in Hmap as (opening & rest & Hus & Hopening & Hrest).
  apply map_eq_app in Hrest as (during & closing & Hrest & Hduring & Hclosing).
  exists opening, during, closing. rewrite Hus, Hrest.
  split; [reflexivity|]. split; [exact Hopening|]. split; [|split].
  - rewrite <- (length_map progress during), Hduring, length_map. reflexivity.
  - apply (Forall_of_map progress (fun i => clipProgress i (JS.of_Z z))
             (JS.within (inject_Z 20) (inject_Z 60)) during _ Hduring).
    apply List.Forall_forall. intros i Hin.
    apply List.filter_In in Hin as [Hin _]. apply List.in_seq in Hin.
    apply clipProgress_within_count. lia.
  - rewrite Hclosing. unfold closing_progress.
    destruct (writeFileSync env); [destruct (ffmpeg env)|]; reflexivity.
Qed.

Lemma progress_sequence_witness :
  exists opening during closing,
    updates_of (generateMontage 3 env_ok ∅ (request ["https://example.com/v"] 30 95 None))
    = (opening ++ during ++ closing)%list
    /\ map progress opening = [JS.of_Z 0; JS.of_Z 10; JS.of_Z 20]
    /\ length during = 3%nat
    /\ Forall (fun u => JS.within (inject_Z 20) (inject_Z 60) (progress u)) during
    /\ map progress closing = [JS.of_Z 60; JS.of_Z 70; JS.of_Z 90; JS.of_Z 100].
Proof.
  apply (progress_sequence 3 env_ok ∅ (request ["https://example.com/v"] 30 95 None)
           "https://example.com/v" [] "/tmp/montage-abc123" 3
           eq_refl (conj eq_refl eq_refl) eq_refl eq_refl (le_n 3)).
Defined.

(** ** Requests that need no clip *)

Lemma clipLoop_none fuel env jobId data workspace needed i s :
  JS.lt (JS.of_nat i) needed = false ->
  clipLoop fuel env jobId data workspace needed i s = (s, true).
Proof. intros H. destruct fuel; cbn [clipLoop]; rewrite H; reflexivity. Qed.

Lemma clipsNeeded_none data :
  montageLength data = JS.NaN \/ interval data = JS.NaN
  \/ (exists m i, montageLength data = JS.Fin m /\ interval data = JS.Fin i
                  /\ (0 <= m)%Q /\ (m < i)%Q) ->
  JS.lt (JS.of_nat 0) (clipsNeeded data) = false.
Proof.
  unfold clipsNeeded. intros [H | [H | (m & i & Hm & Hi & Hm0 & Hmi)]].
  - rewrite H. reflexivity.
  - rewrite H. destruct (montageLength data); reflexivity.
  - rewrite Hm, Hi. unfold JS.div.
    assert (Hi0 : (0 < i)%Q) by (eapply Qle_lt_trans; eassumption).
    apply Qgt_alt in Hi0. rewrite Hi0.
    assert (Hfloor : Qfloor (m / i) = 0%Z).
    { apply Qgt_alt in Hi0. apply Qfloor_spec. split.
      - apply Qle_shift_div_l; [exact Hi0|]. rewrite Qmult_0_l. exact Hm0.
      - apply Qlt_shift_div_r; [exact Hi0|]. rewrite Qmult_1_l. exact Hmi. }
    cbn [JS.floor]. rewrite Hfloor. reflexivity.
Qed.

(** X7. For an accepted job with both tools present and its workspace
    created: when the montage length or the interval is NaN in the division
    (the field is absent from the request), or when the montage length is
    at least 0 and below the interval, no clip is attempted: after the two
    checks of the tools and the creation of the workspace, the run goes
    straight from progress 20 to the manifest stage, writes an empty
    manifest and runs the encoder on it, whatever the fuel. *)
Theorem no_clip_needed (fuel : nat) (env : Env) (registry : gmap string Job)
  (req : Request) (url : string) (urls : list string) (workspace : string) :
  req_videoUrls req = Some (url :: urls) ->
  both_tools env ->
  mkdtempSync env = Ok workspace ->
  req_montageLength req = JS.NaN \/ req_interval req = JS.NaN
  \/ (exists m i, req_montageLength req = JS.Fin m /\ req_interval req = JS.Fin i
                  /\ (0 <= m)%Q /\ (m < i)%Q) ->
  exists run,
    snd (generateMontage fuel env registry req) = Some run
    /\ run_returned run = true
    /\ attempts (run_calls run) = 0%nat
    /\ run_calls run
       = (CallWhich "ffmpeg" :: CallWhich "yt-dlp"
          :: CallMkdtemp (path_join env (tmpdir env) "montage-")
          :: closing_calls env (data_of req (url :: urls)) workspace [])%list
    /\ clipListContent [] = ""
    /\ map progress (run_updates run)
       = ([JS.of_Z 0; JS.of_Z 10; JS.of_Z 20] ++ closing_progress env)%list.
Proof.
  intros Hurls Htools Hws Hnone.
  rewrite (generateMontage_accepts fuel env registry req url urls Hurls).
  set (data := data_of req (url :: urls)).
  set (created := newJob env data).
  pose proof (lookup_insert_eq registry (uuidv4 env) created) as Hlookup.
  pose proof (clipsNeeded_none data Hnone) as Hguard.
  cbv zeta.
  rewrite (processMontage_enters env _ _ workspace fuel _ created Hlookup Htools Hws).
  rewrite clipLoop_none by exact Hguard.
  eexists. split; [reflexivity|]. unfold stop. cbn [run_returned run_calls run_updates fst snd].
  split; [reflexivity|]. rewrite finishMontage_calls, map_cons, finishMontage_progress.
  split; [|split; [reflexivity | split; reflexivity]].
  change (calls (before_loop env (<[uuidv4 env := created]> registry) (uuidv4 env) created))
    with [CallWhich "ffmpeg"; CallWhich "yt-dlp";
          CallMkdtemp (path_join env (tmpdir env) "montage-")].
  rewrite attempts_app. fold (closing_calls env data workspace []).
  rewrite attempts_closing. reflexivity.
Qed.

Lemma no_clip_needed_witness :
  exists run,
    snd (generateMontage 0 env_ok ∅ (request ["https://example.com/v"] 30 20 None))
      = Some run
    /\ run_returned run = true
    /\ attempts (run_calls run) = 0%nat
    /\ In (CallWriteFile "/tmp/montage-abc123/clip_list.txt" "") (run_calls run).
Proof.
  destruct (no_clip_needed 0 env_ok ∅ (request ["https://example.com/v"] 30 20 None)
              "https://example.com/v" [] "/tmp/montage-abc123"
              eq_refl (conj eq_refl eq_refl) eq_refl) as (run & H1 & H2 & H3 & H4 & _).
  - right. right. exists (inject_Z 20), (inject_Z 30).
    repeat split; try reflexivity. compute. discriminate.
  - exists run. split; [exact H1|]. split; [exact H2|]. split; [exact H3|].
    rewrite H4. do 3 right. left. reflexivity.
Defined.

(** ** Where a clip lies in its source *)



(** ** Durations the parser does not expect *)

Lemma split_nonempty sep s : Str.split sep s <> [].
Proof.
  destruct s as [|c s]; simpl; [discriminate|].
  destruct (Ascii.eqb c sep); [discriminate|].
  destruct (Str.split sep s); discriminate.
Qed.

Lemma leading_digits_stop a rest : forall acc,
  all_digits a = true ->
  Str.leading_digits 10 Str.digit_value (Some acc) (a +:+ String ":" rest)
  = Some (acc * 10 ^ Z.of_nat (String.length a) + decimal a)%Z.
Proof.
  induction a as [|c a IH]; intros acc H; simpl in *.
  - f_equal. lia.
  - apply andb_prop in H as [Hc Ha]. unfold Str.digit_value at 1. rewrite Hc.
    rewrite (IH _ Ha). f_equal.
    rewrite Nat2Z.inj_succ, Z.pow_succ_r by lia. lia.
Qed.

Lemma strip_hex_prefix_field a rest :
  all_digits a = true -> Str.strip_hex_prefix (a +:+ String ":" rest) = None.
Proof.
  destruct a as [|c [|c2 a]]; [reflexivity| |].
  - intros _. destruct c as [[] [] [] [] [] [] [] []]; reflexivity.
  - simpl. intros [_ [Hc2 _]%andb_prop]%andb_prop.
    destruct c as [[] [] [] [] [] [] [] []]; try reflexivity.
    destruct c2 as [[] [] [] [] [] [] [] []]; try reflexivity; discriminate Hc2.
Qed.

Lemma parseInt_first_field a rest :
  all_digits a = true -> a <> "" -> (decimal a < 2 ^ 53)%Z ->
  Str.parseInt (a +:+ String ":" rest) = Some (JS.of_Z (decimal a)).
Proof.
  destruct a as [|c a]; [congruence|]. intros H _ Hb.
  pose proof (safe_decimal _ H Hb) as Hsafe.
  pose proof (strip_hex_prefix_field _ rest H) as Hhex.
  simpl in H. apply andb_prop in H as [Hc Ha].
  change (String c a +:+ String ":" rest) with (String c (a +:+ String ":" rest)) in *.
  assert (Hsp : Str.drop_spaces (String c (a +:+ String ":" rest))
                = String c (a +:+ String ":" rest)).
  { destruct c as [[] [] [] [] [] [] [] []]; try discriminate Hc; reflexivity. }
  assert (Hld : Str.leading_digits 10 Str.digit_value None (String c (a +:+ String ":" rest))
                = Some (decimal (String c a))).
  { simpl. unfold Str.digit_value at 1. rewrite Hc.
    rewrite (leading_digits_stop a rest _ Ha). reflexivity. }
  unfold Str.parseInt. rewrite Hsp.
  destruct c as [[] [] [] [] [] [] [] []]; try discriminate Hc;
    cbv beta iota zeta; rewrite Hhex, Hld, Hsafe; reflexivity.
Qed.

(** X9. A duration with more than three fields is not read as a duration:
    with digits in the first three fields and a first field whose value is
    below [2 ^ 53], whatever follows the third colon, the result is the
    value of the first field alone (as seconds). *)
Theorem parseDuration_extra_fields (a b c rest : string) :
  all_digits a = true -> a <> "" -> (decimal a < 2 ^ 53)%Z ->
  all_digits b = true -> all_digits c = true ->
  parseDuration (a +:+ ":" +:+ b +:+ ":" +:+ c +:+ ":" +:+ rest)
  = Some (JS.of_Z (decimal a)).
Proof.
  intros Ha Hne Hbound Hb Hc. unfold parseDuration.
  change (a +:+ ":" +:+ b +:+ ":" +:+ c +:+ ":" +:+ rest)
    with (a +:+ String ":" (b +:+ String ":" (c +:+ String ":" rest))).
  rewrite (split_field a _ Ha), (split_field b _ Hb), (split_field c _ Hc).
  pose proof (split_nonempty ":" rest) as Hrest.
  destruct (Str.split ":" rest) as [|x xs]; [congruence|].
  cbn [map]. rewrite (parseInt_first_field a _ Ha Hne Hbound). reflexivity.
Qed.

Lemma parseDuration_extra_fields_witness :
  parseDuration "1:02:03:04" = Some (JS.of_Z 1).
Proof.
  apply (parseDuration_extra_fields "1" "02" "03" "04"); try reflexivity. discriminate.
Defined.

Lemma drop_spaces_all s : all_spaces s = true -> Str.drop_spaces s = "".
Proof.
  induction s as [|c s IH]; simpl; [reflexivity|].
  intros [Hc Hs]%andb_prop. rewrite Hc. apply IH, Hs.
Qed.

(** X10. When the probe succeeds but prints only white space, the duration
    is NaN and the clip is still downloaded, with NaN as its start offset:
    the turn makes the probe call and the download call, and the clip is
    kept and the progress stored as for any other clip. *)
Theorem blank_duration_still_downloads (env : Env) (jobId : string)
  (data : MontageData) (workspace : string) (needed : JS.number) (i : nat)
  (st : State) (clips : list string) (stdout : string) :
  ytdlp_get_duration env i = Ok stdout ->
  all_spaces stdout = true ->
  parseDuration (Str.trim stdout) = Some JS.NaN
  /\ calls (fst (clipStep env jobId data workspace needed i (st, clips)))
     = (calls st ++
        [CallGetVideoDuration i (first_url data);
         CallDownloadClip i (first_url data) (Some JS.NaN) (interval data)
           (clipFile env workspace i)])%list
  /\ (ytdlp_download env i = Ok tt ->
      snd (clipStep env jobId data workspace needed i (st, clips))
      = (clips ++ [clipFile env workspace i])%list).
Proof.
  intros Hprobe Hblank.
  assert (Htrim : Str.trim stdout = "").
  { unfold Str.trim. rewrite (drop_spaces_all stdout Hblank). reflexivity. }
  split; [rewrite Htrim; reflexivity|].
  unfold clipStep, getVideoDuration, downloadClip. rewrite Hprobe, Htrim.
  change (parseDuration "") with (Some JS.NaN). cbv beta iota zeta.
  assert (Hstart : startTime (Math_random env i) (maxStart JS.NaN (interval data)) = JS.NaN).
  { unfold maxStart, JS.sub. destruct (interval data); reflexivity. }
  rewrite Hstart. split.
  - destruct (ytdlp_download env i); cbn [fst calls call jobs_set mutate];
      rewrite <- app_assoc; reflexivity.
  - intros ->. reflexivity.
Qed.

Lemma blank_duration_still_downloads_witness :
  calls (fst (clipStep env_blank "job-1" (data_of (request ["u"] 30 95 None) ["u"])
                "/tmp/w" (JS.of_Z 3) 0
                ({| job := newJob env_blank (data_of (request ["u"] 30 95 None) ["u"]);
                    jobs := ∅; updates := []; calls := [] |}, [])))
  = [CallGetVideoDuration 0 (Some "u");
     CallDownloadClip 0 (Some "u") (Some JS.NaN) (JS.of_Z 30) "/tmp/w/clip_01.mp4"].
Proof.
  destruct (blank_duration_still_downloads env_blank "job-1"
              (data_of (request ["u"] 30 95 None) ["u"]) "/tmp/w" (JS.of_Z 3) 0
              {| job := newJob env_blank (data_of (request ["u"] 30 95 None) ["u"]);
                 jobs := ∅; updates := []; calls := [] |} [] newline eq_refl eq_refl)
    as (_ & H & _).
  exact H.
Defined.

(** ** The files of the clips *)

Section ClipNames.

Lemma string_length_app s t : String.length (s +:+ t) = (String.length s + String.length t)%nat.
Proof. induction s as [|c s IH]; simpl; [reflexivity | rewrite IH; reflexivity]. Qed.

Lemma string_app_inv_tail t : forall s1 s2, s1 +:+ t = s2 +:+ t -> s1 = s2.
Proof.
  induction s1 as [|a s1 IH]; intros [|b s2] H.
  - reflexivity.
  - apply (f_equal String.length) in H.
    rewrite (string_length_app (String b s2) t) in H.
    change ("" +:+ t) with t in H. simpl in H. lia.
  - apply (f_equal String.length) in H.
    rewrite (string_length_app (String a s1) t) in H.
    change ("" +:+ t) with t in H. simpl in H. lia.
  - change (String a (s1 +:+ t) = String b (s2 +:+ t)) in H.
    injection H as -> H. f_equal. apply IH. exact H.
Qed.

Lemma to_uint_nonnil n : Nat.to_uint n <> Decimal.Nil.
Proof.
  intros E. pose proof (DecimalNat.Unsigned.of_to n) as H. rewrite E in H.
  simpl in H. subst n. discriminate E.
Qed.

Lemma read_zeros k s :
  option_map Nat.of_uint
    (NilEmpty.uint_of_string (string_of_list_ascii (repeat "0"%char k) +:+ s))
  = option_map Nat.of_uint (NilEmpty.uint_of_string s).
Proof.
  induction k as [|k IH]; [reflexivity|].
  change (string_of_list_ascii (repeat "0"%char (S k)) +:+ s)
    with (String "0" (string_of_list_ascii (repeat "0"%char k) +:+ s)).
  cbn [NilEmpty.uint_of_string]. rewrite <- IH.
  destruct (NilEmpty.uint_of_string _); reflexivity.
Qed.

(** The padded number of a clip reads back as the number. *)
Lemma read_padded n :
  option_map Nat.of_uint (NilEmpty.uint_of_string (Str.padStart 2 "0" (Str.of_nat n)))
  = Some n.
Proof.
  unfold Str.padStart. rewrite read_zeros. unfold Str.of_nat, NilZero.string_of_uint.
  pose proof (to_uint_nonnil n) as Hne.
  destruct (Nat.to_uint n) eqn:E; try congruence;
    rewrite <- E, NilEmpty.usu; simpl; f_equal; apply DecimalNat.Unsigned.of_to.
Qed.

Lemma clipName_inj i j : clipName i = clipName j -> i = j.
Proof.
  unfold clipName. intros H. apply (inj (String.app "clip_")) in H.
  apply string_app_inv_tail in H.
  pose proof (read_padded (i + 1)) as Hi. rewrite H, read_padded in Hi.
  injection Hi. lia.
Qed.

Lemma NoDup_map_inj {A B} (f : A -> B) (l : list A) :
  (forall x y, f x = f y -> x = y) -> List.NoDup l -> List.NoDup (map f l).
Proof.
  intros Hf. induction 1 as [|x l Hx Hl IH]; simpl; constructor; [|exact IH].
  intros Hin. apply in_map_iff in Hin as (y & Hy & Hin).
  apply Hf in Hy. subst y. apply Hx. exact Hin.
Qed.

End ClipNames.

(** X11. The clips of a job get file names that differ from turn to turn,
    also past the 99th clip, where the number is no longer padded. So when
    [path.join] keeps the names of two clips apart in the workspace (the
    names have no separator and no dot segment for it to rewrite), no two
    turns share a file and the manifest lists no file twice. *)
Theorem clip_files_distinct (env : Env) (workspace : string) (n : nat) :
  (forall i j,
      path_join env workspace (clipName i) = path_join env workspace (clipName j) ->
      clipName i = clipName j) ->
  (forall i j, clipName i = clipName j -> i = j)
  /\ (forall i, clipFile env workspace i = path_join env workspace (clipName i))
  /\ (forall i j, clipFile env workspace i = clipFile env workspace j -> i = j)
  /\ List.NoDup (kept_clips env workspace n).
Proof.
  intros Hjoin.
  assert (Hinj : forall i j, clipFile env workspace i = clipFile env workspace j -> i = j).
  { intros i j H. apply clipName_inj, Hjoin. exact H. }
  split; [exact clipName_inj|]. split; [reflexivity|].
  split; [exact Hinj|]. unfold kept_clips.
  apply NoDup_map_inj; [exact Hinj|].
  apply List.NoDup_filter, List.seq_NoDup.
Qed.

Lemma posix_join_inj w a b : posix_join w a = posix_join w b -> a = b.
Proof.
  unfold posix_join. intros H. apply (inj (String.app w)) in H.
  apply (inj (String.app "/")) in H. exact H.
Qed.

Lemma clip_files_distinct_witness :
  (forall i j, clipFile env_ok "/tmp/w" i = clipFile env_ok "/tmp/w" j -> i = j)
  /\ List.NoDup (kept_clips env_ok "/tmp/w" 120).
Proof.
  destruct (clip_files_distinct env_ok "/tmp/w" 120) as (_ & _ & Hfiles & Hkept).
  - intros i j H. exact (posix_join_inj "/tmp/w" _ _ H).
  - split; [exact Hfiles | exact Hkept].
Defined.

(** ** The manifest *)

Section Manifest.

Lemma lacks_app c s t : lacks c (s +:+ t) = lacks c s && lacks c t.
Proof.
  induction s as [|a s IH]; [reflexivity|].
  change (String a s +:+ t) with (String a (s +:+ t)). cbn [lacks].
  rewrite IH, andb_assoc. reflexivity.
Qed.

Lemma split_lacks sep s : lacks sep s = true -> Str.split sep s = [s].
Proof.
  induction s as [|a s IH]; cbn [lacks Str.split]; [reflexivity|].
  intros [Ha Hs]%andb_prop. apply negb_true_iff in Ha. rewrite Ha, (IH Hs). reflexivity.
Qed.

Lemma split_line sep s rest :
  lacks sep s = true ->
  Str.split sep (s +:+ String sep rest) = s :: Str.split sep rest.
Proof.
  induction s as [|a s IH].
  - intros _. change ("" +:+ String sep rest) with (String sep rest).
    cbn [Str.split]. rewrite Ascii.eqb_refl. reflexivity.
  - cbn [lacks]. intros [Ha Hs]%andb_prop. apply negb_true_iff in Ha.
    change (String a s +:+ String sep rest) with (String a (s +:+ String sep rest)).
    cbn [Str.split]. rewrite Ha, (IH Hs). reflexivity.
Qed.

Lemma split_join sep parts :
  parts <> [] ->
  Forall (fun p => lacks sep p = true) parts ->
  Str.split sep (Str.join (String sep "") parts) = parts.
Proof.
  induction parts as [|p [|q parts] IH]; intros Hne Hall; [congruence| |].
  - cbn [Str.join]. apply split_lacks. apply (List.Forall_inv Hall).
  - change (Str.join (String sep "") (p :: q :: parts))
      with (p +:+ String sep "" +:+ Str.join (String sep "") (q :: parts)).
    change (p +:+ String sep "" +:+ Str.join (String sep "") (q :: parts))
      with (p +:+ String sep (Str.join (String sep "") (q :: parts))).
    rewrite split_line by apply (List.Forall_inv Hall).
    rewrite IH; [reflexivity | discriminate | apply (List.Forall_inv_tail Hall)].
Qed.

End Manifest.

(** X12. The manifest has one line per clip, in the order of the clips:
    when no file path contains a line feed, splitting the manifest at line
    feeds gives back [file '<path>'] for each clip in order. *)
Theorem manifest_lines (clips : list string) :
  clips <> [] ->
  Forall (fun clip => lacks "010" clip = true) clips ->
  Str.split "010" (clipListContent clips)
  = map (fun clip => "file '" +:+ clip +:+ "'") clips.
Proof.
  intros Hne Hall. unfold clipListContent, newline. apply split_join.
  - destruct clips; [congruence | discriminate].
  - apply Forall_forall. intros line Hin.
    apply list_elem_of_In, in_map_iff in Hin as (clip & <- & Hin).
    rewrite Forall_forall in Hall. specialize (Hall clip (proj2 (list_elem_of_In _ _) Hin)).
    rewrite !lacks_app, Hall. reflexivity.
Qed.

Lemma manifest_lines_witness :
  Str.split "010" (clipListContent ["/tmp/w/clip_01.mp4"; "/tmp/w/clip_03.mp4"])
  = ["file '/tmp/w/clip_01.mp4'"; "file '/tmp/w/clip_03.mp4'"].
Proof.
  apply (manifest_lines ["/tmp/w/clip_01.mp4"; "/tmp/w/clip_03.mp4"]).
  - discriminate.
  - repeat constructor.
Defined.

(** ** The calls a run makes *)

Section Discipline.

Variable env : Env.
Variable data : MontageData.
Variable workspace : string.
Hypothesis Htools : both_tools env.
Hypothesis Hworkspace : mkdtempSync env = Ok workspace.

Lemma turns_allowed i count :
  Forall (call_allowed env) (flat_map (turn_calls env data workspace) (seq i count)).
Proof.
  revert i. induction count as [|count IH]; intros i; [constructor|].
  cbn [seq flat_map]. apply Forall_app. split; [|apply IH].
  unfold turn_calls, getVideoDuration.
  destruct (ytdlp_get_duration env i) as [stdout|] eqn:Hprobe;
    repeat (constructor; [split; [exact Htools | cbn; eauto]|]); constructor.
Qed.

Lemma closing_allowed clips :
  Forall (call_allowed env) (closing_calls env data workspace clips).
Proof.
  unfold closing_calls. destruct (writeFileSync env) as [[]|] eqn:Hwrite;
    repeat (constructor; [split; [exact Htools | cbn; eauto]|]); constructor.
Qed.

End Discipline.

(** X13. The only calls a run makes whatever the tools are the two [which]
    checks, of ffmpeg and of yt-dlp. It creates the workspace only when both
    tools are present; with both present it probes a clip only after the
    workspace was created, downloads a clip only in a turn whose probe
    succeeded, writes the manifest only with a workspace, and runs the
    encoder only after the manifest was written. This holds for every
    environment and every fuel. *)
Theorem calls_are_allowed (fuel : nat) (env : Env) (registry : gmap string Job)
  (req : Request) :
  Forall (call_allowed env) (calls_of (generateMontage fuel env registry req)).
Proof.
  unfold calls_of, generateMontage.
  destruct (req_videoUrls req) as [[|url urls]|]; cbn [snd run_calls]; try constructor.
  change (data (newJob env (data_of req (url :: urls)))) with (data_of req (url :: urls)).
  set (d := data_of req (url :: urls)).
  set (created := newJob env d).
  pose proof (lookup_insert_eq registry (uuidv4 env) created) as Hlookup.
  assert (Hchecks : Forall (call_allowed env) [CallWhich "ffmpeg"; CallWhich "yt-dlp"]).
  { constructor; [left; reflexivity|]. constructor; [right; reflexivity | constructor]. }
  destruct (which env "ffmpeg") eqn:Hff; [destruct (which env "yt-dlp") eqn:Hyt|];
    try (unfold processMontage, commandExists; rewrite Hlookup, Hff, ?Hyt; exact Hchecks).
  assert (Htools : both_tools env) by (split; assumption).
  assert (Hopening : Forall (call_allowed env)
                       [CallWhich "ffmpeg"; CallWhich "yt-dlp";
                        CallMkdtemp (path_join env (tmpdir env) "montage-")]).
  { apply (Forall_app _ [_; _] [_]). split; [exact Hchecks|].
    apply Forall_singleton. exact Htools. }
  destruct (mkdtempSync env) as [workspace|message] eqn:Hws.
  2:{ unfold processMontage, commandExists. rewrite Hlookup, Hff, Hyt, Hws.
      exact Hopening. }
  rewrite (processMontage_enters env _ d workspace fuel _ created Hlookup Htools Hws).
  destruct (clipLoop_steps env (uuidv4 env) d workspace fuel 0
              (before_loop env (<[uuidv4 env := created]> registry) (uuidv4 env) created, []))
    as (count & Heq & _ & _).
  destruct (clipSteps_effect env (uuidv4 env) d workspace (clipsNeeded d) count 0
              (before_loop env (<[uuidv4 env := created]> registry) (uuidv4 env) created) [])
    as [Hcalls _].
  rewrite <- Heq in Hcalls.
  destruct (clipLoop fuel env (uuidv4 env) d workspace (clipsNeeded d) 0 _)
    as [[st clips] b].
  cbn [fst] in Hcalls.
  assert (Hloop : Forall (call_allowed env) (calls st)).
  { rewrite Hcalls. apply Forall_app. split; [exact Hopening|].
    apply turns_allowed; assumption. }
  destruct b; unfold stop; cbn [run_calls fst snd]; [|exact Hloop].
  rewrite finishMontage_calls. apply Forall_app. split; [exact Hloop|].
  apply (closing_allowed env d workspace Htools Hws).
Qed.
